(** * Comic Encyclopedia: the dataset loader and the search/report engine

    A shallow embedding of [encyclopedia.py]: the classes
    [ComicsDatasetManager] and [ComicSearchService] and the two utility
    functions [format_multivalue] and [handle_special_characters].

    What the embedding covers, and how pandas is read:
    - text is a [string] of 8-bit characters; [str.lower] folds the letters
      A-Z only (the ASCII part of Python's Unicode case folding);
    - a cell of a DataFrame is [NaN] (a missing value), [Str] (a Python [str])
      or [Int] (a Python [int]); floats other than NaN are not modelled;
    - a DataFrame is the list of its column names and the list of its rows,
      a row being the association list from column name to cell, in column
      order; the positional index that pandas carries along is left out,
      since no operation of the program reads it;
    - a Python exception is a value of [exn], returned in [Raise];
    - [Series.str.contains] is used by the program with its defaults, so the
      pattern is a regular expression. The patterns made of ordinary
      characters and of the wildcard [.] are interpreted here; for every
      other pattern the answer of Python's [re] module is a parameter of the
      development ([re_engine]). *)

From Stdlib Require Import String Ascii List ZArith Lia Bool DecimalString.
From Stdlib Require Import Permutation Sorted OrderedTypeEx.
From Equations Require Import Equations.
Import ListNotations.

Open Scope string_scope.
Open Scope list_scope.

(** ** Python values *)

Inductive exn : Type :=
| KeyError (key : string)
| TypeError
| AttributeError
| ReError
| OSError (msg : string)
| ParserError (msg : string).

Inductive result (A : Type) : Type :=
| Ok (a : A)
| Raise (e : exn).

Arguments Ok {A} a.
Arguments Raise {A} e.

Definition bind {A B : Type} (r : result A) (k : A -> result B) : result B :=
  match r with
  | Ok a => k a
  | Raise e => Raise e
  end.

Notation "x <- r ;; k" := (bind r (fun x => k))
  (at level 61, r at next level, right associativity).

Inductive cell : Type :=
| NaN
| Str (s : string)
| Int (z : Z).

Arguments Int z%_Z.

Definition cell_eqb (a b : cell) : bool :=
  match a, b with
  | NaN, NaN => true
  | Str s, Str t => String.eqb s t
  | Int x, Int y => Z.eqb x y
  | _, _ => false
  end.

(** [str(x)] *)
Definition cell_str (c : cell) : string :=
  match c with
  | NaN => "nan"
  | Str s => s
  | Int z => NilZero.string_of_int (Z.to_int z)
  end.

(** [pd.isna(x)] *)
Definition isna (c : cell) : bool :=
  match c with
  | NaN => true
  | _ => false
  end.

(** [a <= b] and [a > b] on Python values: strings are compared
    lexicographically by character code, integers by value, every comparison
    with NaN is false, and a string against a number raises TypeError. *)
Definition cell_leb (a b : cell) : result bool :=
  match a, b with
  | Str s, Str t => Ok (String.leb s t)
  | Int x, Int y => Ok (Z.leb x y)
  | Str _, _ | _, Str _ => Raise TypeError
  | _, _ => Ok false
  end.

Definition cell_gtb (a b : cell) : result bool :=
  match a, b with
  | Str s, Str t => Ok (negb (String.leb s t))
  | Int x, Int y => Ok (Z.ltb y x)
  | Str _, _ | _, Str _ => Raise TypeError
  | _, _ => Ok false
  end.

(** ** Text *)

Definition LF : string := String "010"%char EmptyString.

Definition is_upper (c : ascii) : bool :=
  (Ascii.leb "A" c && Ascii.leb c "Z")%char.

Definition lower_char (c : ascii) : ascii :=
  if is_upper c then ascii_of_nat (nat_of_ascii c + 32) else c.

(** [str.lower] *)
Fixpoint lower (s : string) : string :=
  match s with
  | EmptyString => EmptyString
  | String c s' => String (lower_char c) (lower s')
  end.

(** [str.isspace] on one ASCII character: tab, LF, VT, FF, CR, the four
    separators 28-31 and the space. *)
Definition is_space (c : ascii) : bool :=
  let n := nat_of_ascii c in
  ((9 <=? n) && (n <=? 13) || (28 <=? n) && (n <=? 32))%nat.

Fixpoint lstrip (s : string) : string :=
  match s with
  | String c s' => if is_space c then lstrip s' else s
  | EmptyString => EmptyString
  end.

Fixpoint rstrip (s : string) : string :=
  match s with
  | EmptyString => EmptyString
  | String c s' =>
      match rstrip s' with
      | EmptyString => if is_space c then EmptyString else String c EmptyString
      | t => String c t
      end
  end.

(** [str.strip] *)
Definition strip (s : string) : string := rstrip (lstrip s).

(** [s.split(sep)] for a one-character separator *)
Fixpoint split_on (sep : ascii) (s : string) : list string :=
  match s with
  | EmptyString => [EmptyString]
  | String c s' =>
      if Ascii.eqb c sep then EmptyString :: split_on sep s'
      else match split_on sep s' with
           | [] => [String c EmptyString]
           | w :: ws => String c w :: ws
           end
  end.

Fixpoint has_char (c : ascii) (s : string) : bool :=
  match s with
  | EmptyString => false
  | String d s' => Ascii.eqb c d || has_char c s'
  end.

Definition nonempty (s : string) : bool :=
  match s with
  | EmptyString => false
  | String _ _ => true
  end.

(** ** Regular expressions, as [Series.str.contains] uses them *)

Inductive atom : Type :=
| Lit (c : ascii)
| AnyChar.

(** The characters that [re] does not read as themselves. *)
Definition metachars : string := ".^$*+?{}[]\|()".

Definition is_metachar (c : ascii) : bool := has_char c metachars.

(** A pattern of ordinary characters and [.] only; [None] for the others. *)
Fixpoint parse_simple (pat : string) : option (list atom) :=
  match pat with
  | EmptyString => Some []
  | String c pat' =>
      match parse_simple pat' with
      | None => None
      | Some atoms =>
          if Ascii.eqb c "."%char then Some (AnyChar :: atoms)
          else if is_metachar c then None
          else Some (Lit c :: atoms)
      end
  end.

(** [.] matches any character except a newline. *)
Definition atom_matches (a : atom) (c : ascii) : bool :=
  match a with
  | Lit x => Ascii.eqb x c
  | AnyChar => negb (Ascii.eqb c "010"%char)
  end.

Fixpoint match_here (atoms : list atom) (s : string) : bool :=
  match atoms, s with
  | [], _ => true
  | _ :: _, EmptyString => false
  | a :: atoms', String c s' => atom_matches a c && match_here atoms' s'
  end.

(** [pattern.search(s) is not None] *)
Fixpoint search (atoms : list atom) (s : string) : bool :=
  match_here atoms s ||
  match s with
  | EmptyString => false
  | String _ s' => search atoms s'
  end.

(** ** Tables *)

Definition row : Type := list (string * cell).

Fixpoint row_get (c : string) (r : row) : cell :=
  match r with
  | [] => NaN
  | (k, v) :: r' => if String.eqb k c then v else row_get c r'
  end.

Fixpoint row_remove (c : string) (r : row) : row :=
  match r with
  | [] => []
  | (k, v) :: r' => if String.eqb k c then row_remove c r' else (k, v) :: row_remove c r'
  end.

(** [row[c] = v]: an existing column is overwritten in place, a new one is
    appended. *)
Fixpoint row_set (c : string) (v : cell) (r : row) : row :=
  match r with
  | [] => [(c, v)]
  | (k, w) :: r' => if String.eqb k c then (k, v) :: r' else (k, w) :: row_set c v r'
  end.

Record frame : Type := mkFrame {
  columns : list string;
  rows : list row
}.

(** [pd.DataFrame()] *)
Definition empty_frame : frame := mkFrame [] [].

Definition has_column (c : string) (f : frame) : bool :=
  existsb (String.eqb c) (columns f).

(** [df[c]]: the cells of a column, or KeyError. *)
Definition column (c : string) (f : frame) : result (list cell) :=
  if has_column c f then Ok (map (row_get c) (rows f)) else Raise (KeyError c).

(** [df[mask]] for a boolean mask as long as the frame *)
Fixpoint mask_rows (mask : list bool) (rs : list row) : list row :=
  match mask, rs with
  | b :: mask', r :: rs' => if b then r :: mask_rows mask' rs' else mask_rows mask' rs'
  | _, _ => []
  end.

Definition select (mask : list bool) (f : frame) : frame :=
  mkFrame (columns f) (mask_rows mask (rows f)).

(** ** [collections.Counter]: a dict in insertion order *)

Section Counter.
Context {K : Type} (eqb : K -> K -> bool).

Definition Counter : Type := list (K * Z).

(** [c[k] += 1] *)
Fixpoint counter_incr (k : K) (c : Counter) : Counter :=
  match c with
  | [] => [(k, 1%Z)]
  | (k', n) :: c' =>
      if eqb k' k then (k', (n + 1)%Z) :: c' else (k', n) :: counter_incr k c'
  end.

(** [for k in ks: c[k] += 1], and [Counter(ks)] when [c] is empty *)
Definition counter_update (ks : list K) (c : Counter) : Counter :=
  fold_left (fun acc k => counter_incr k acc) ks c.

(** [c[k]] *)
Fixpoint counter_get (k : K) (c : Counter) : Z :=
  match c with
  | [] => 0%Z
  | (k', n) :: c' => if eqb k' k then n else counter_get k c'
  end.
End Counter.

Arguments Counter K : clear implicits.

(** [sorted(items, key=count, reverse=True)]: a stable sort, larger counts
    first, equal counts in their original order. *)
Fixpoint insert_desc {K : Type} (x : K * Z) (l : list (K * Z)) : list (K * Z) :=
  match l with
  | [] => [x]
  | y :: l' => if (snd y <=? snd x)%Z then x :: l else y :: insert_desc x l'
  end.

Definition sorted_desc {K : Type} (c : list (K * Z)) : list (K * Z) :=
  fold_right insert_desc [] c.

(** [c.most_common(n)], that is [heapq.nlargest(n, c.items(), key=count)] *)
Definition most_common {K : Type} (n : nat) (c : Counter K) : list (K * Z) :=
  firstn n (sorted_desc c).

(** ** [ComicSearchService] *)

(** A list comprehension [[i for i in items if p(i)]] whose test may raise. *)
Fixpoint filterM {A : Type} (p : A -> result bool) (l : list A) : result (list A) :=
  match l with
  | [] => Ok []
  | x :: l' =>
      b <- p x ;;
      rest <- filterM p l' ;;
      Ok (if b then x :: rest else rest)
  end.

Definition inspect {A : Type} (a : A) : {b : A | a = b} := exist _ a eq_refl.

(** The local function [qsort] of [sort_by_title]. *)
Equations? qsort (items : list cell) : result (list cell) by wf (length items) lt :=
  qsort [] := Ok [];
  qsort [x] := Ok [x];
  qsort (pivot :: rest) with inspect (filterM (fun i => cell_leb i pivot) rest) := {
    | exist _ (Raise e) _ := Raise e;
    | exist _ (Ok less) Hless with inspect (filterM (fun i => cell_gtb i pivot) rest) := {
      | exist _ (Raise e) _ := Raise e;
      | exist _ (Ok greater) Hgreater :=
          sorted_less <- qsort less ;;
          sorted_greater <- qsort greater ;;
          Ok (sorted_less ++ pivot :: sorted_greater) } }.
Proof.
  all: assert (shorter : forall (test : cell -> result bool) (xs kept : list cell),
                  filterM test xs = Ok kept -> length kept <= length xs).
  1, 3: intros test xs; induction xs as [|y ys IH]; simpl; intros kept H;
        [ injection H as <-; simpl; lia
        | destruct (test y) as [b|]; simpl in H; [|discriminate];
          destruct (filterM test ys) as [kept'|]; simpl in H; [|discriminate];
          injection H as <-; specialize (IH kept' eq_refl);
          destruct b; simpl; lia ].
  all: match goal with
       | H : _ = Ok ?r |- length ?r < _ =>
           let L := fresh in
           pose proof (shorter (fun i => _ i pivot) (_ :: _) r H) as L;
           simpl in L; lia
       end.
Qed.

(** [df.set_index("Title").loc[labels].reset_index()]: for every label in
    turn, all the rows that carry it, in table order; "Title" becomes the
    first column. *)
Definition loc_title (labels : list cell) (rs : list row) : list row :=
  flat_map (fun l => filter (fun r => cell_eqb (row_get "Title" r) l) rs) labels.

Definition title_first (r : row) : row :=
  ("Title", row_get "Title" r) :: row_remove "Title" r.

Definition title_first_columns (cs : list string) : list string :=
  "Title" :: filter (fun c => negb (String.eqb c "Title")) cs.

Section Service.
(** Python's [re] on the patterns that [parse_simple] leaves out: the
    compiled matcher, or [None] where [re.compile] raises [re.error]. *)
Variable re_engine : string -> option (string -> bool).

Definition re_compile (pat : string) : result (string -> bool) :=
  match parse_simple pat with
  | Some atoms => Ok (search atoms)
  | None =>
      match re_engine pat with
      | Some m => Ok m
      | None => Raise ReError
      end
  end.

Record service : Type := mkService {
  full_data : frame;
  query_history : list string;
  comic_frequency : Counter cell
}.

(** [ComicSearchService(full_df)] *)
Definition new_service (full_df : frame) : service :=
  mkService full_df [] [].

Definition filter_by_genre (self : service) (genre : string) : result frame :=
  if negb (String.eqb genre "All") then
    genres <- column "Genre" (full_data self) ;;
    Ok (select (map (fun g => cell_eqb g (Str genre)) genres) (full_data self))
  else Ok (full_data self).

Definition sort_by_title (df : frame) (ascending : bool) : result frame :=
  title_list <- column "Title" df ;;
  sorted_title_list <- qsort title_list ;;
  let sorted_title_list :=
    if ascending then sorted_title_list else rev sorted_title_list in
  Ok (mkFrame (title_first_columns (columns df))
              (map title_first (loc_title sorted_title_list (rows df)))).

(** [series.str.lower().str.contains(pat, na=False)] on one cell of an
    object column: a value that is not a string gives NaN, hence [False]. *)
Definition str_lower_contains (m : string -> bool) (c : cell) : bool :=
  match c with
  | Str s => m (lower s)
  | _ => false
  end.

(** [series.astype(str).str.lower().str.contains(pat, na=False)] *)
Definition astype_str_lower_contains (m : string -> bool) (c : cell) : bool :=
  m (lower (cell_str c)).

Definition record_results (found : frame) (freq : Counter cell) : result (Counter cell) :=
  titles <- column "Title" found ;;
  Ok (counter_update cell_eqb titles freq).

(** A method that mutates the service returns its outcome and the service
    as the call leaves it, also when it raises. *)
Definition manual_search (self : service) (query_str : string) : result frame * service :=
  if negb (nonempty query_str) then (Ok (full_data self), self)
  else
    match (titles <- column "Title" (full_data self) ;;
           m <- re_compile (lower query_str) ;;
           Ok (map (str_lower_contains m) titles)) with
    | Raise e => (Raise e, self)
    | Ok search_mask =>
        let found_results := select search_mask (full_data self) in
        let history := query_history self ++ [query_str] in
        match record_results found_results (comic_frequency self) with
        | Raise e => (Raise e, mkService (full_data self) history (comic_frequency self))
        | Ok freq => (Ok found_results, mkService (full_data self) history freq)
        end
    end.

(** The loop of [advanced_search] over [search_params.items()]. *)
Fixpoint narrow (params : list (string * string)) (filtered_df : frame) : result frame :=
  match params with
  | [] => Ok filtered_df
  | (col, value) :: params' =>
      if nonempty value then
        cells <- column col filtered_df ;;
        m <- re_compile (lower value) ;;
        narrow params' (select (map (astype_str_lower_contains m) cells) filtered_df)
      else narrow params' filtered_df
  end.

(** [', '.join([f"{k}={v}" for k, v in search_params.items() if v])] *)
Definition combined_query (params : list (string * string)) : string :=
  String.concat ", "
    (map (fun kv => (fst kv ++ "=" ++ snd kv)%string)
         (filter (fun kv => nonempty (snd kv)) params)).

Definition advanced_search (self : service) (search_params : list (string * string))
  : result frame * service :=
  match narrow search_params (full_data self) with
  | Raise e => (Raise e, self)
  | Ok filtered_df =>
      if nonempty (combined_query search_params) then
        let history := query_history self ++ [combined_query search_params] in
        match record_results filtered_df (comic_frequency self) with
        | Raise e => (Raise e, mkService (full_data self) history (comic_frequency self))
        | Ok freq => (Ok filtered_df, mkService (full_data self) history freq)
        end
      else (Ok filtered_df, self)
  end.

(** One section of the report: a bullet per entry, or the line "  None". *)
Definition report_section (entries : list string) : string :=
  match entries with
  | [] => ("  None" ++ LF)%string
  | _ => String.concat "" (map (fun e => ("  - " ++ e ++ LF)%string) entries)
  end.

Definition popular_comics (self : service) : list cell :=
  map fst (filter (fun kc => (100 <? snd kc)%Z) (comic_frequency self)).

Definition top_queries (self : service) : list string :=
  map fst (most_common 10 (counter_update String.eqb (query_history self) [])).

Definition top_results (self : service) : list cell :=
  map fst (most_common 10 (comic_frequency self)).

Definition generate_report_data (self : service) : string :=
  ("--------- Search Report ---------" ++ LF ++ LF ++
   "Comics appearing in over 100 searches:" ++ LF ++
   report_section (map cell_str (popular_comics self)) ++
   LF ++ "Top 10 search queries:" ++ LF ++
   report_section (top_queries self) ++
   LF ++ "Top 10 search results:" ++ LF ++
   report_section (map cell_str (top_results self)))%string.

End Service.

(** ** Utility functions *)

Definition format_multivalue (field_name : string) (value : cell) : cell :=
  match value with
  | NaN => Str (if String.eqb (lower field_name) "isbn" then "missing" else "")
  | Str s =>
      if has_char ";"%char s then
        let values_list := filter nonempty (map strip (split_on ";"%char s)) in
        Str (String.concat " | "
               (map (fun val => (field_name ++ ": " ++ val)%string) values_list))
      else value
  | Int _ => value
  end.

(** A missing value gives the empty string; text is returned as it is
    (encoding to UTF-8 and back changes nothing in text that can be encoded);
    a number has no [encode], which the function catches to return [str(txt)]. *)
Definition handle_special_characters (txt : cell) : string :=
  match txt with
  | NaN => ""
  | Str s => s
  | Int _ => cell_str txt
  end.

(** ** [ComicsDatasetManager] *)

Definition strip_columns (f : frame) : frame :=
  mkFrame (map strip (columns f))
          (map (map (fun kv : string * cell => (strip (fst kv), snd kv))) (rows f)).

(** [pd.merge(left, right, on=key, how="left", suffixes=(sl, sr))]: every row
    of [left] in order, once per row of [right] with the same key, or once
    with missing values when there is none; a column that both frames have,
    the key apart, takes its side's suffix. The two key columns are taken to
    hold values of one kind. *)
Definition merge_left (left right : frame) (key sl sr : string) : result frame :=
  if negb (has_column key left && has_column key right) then Raise (KeyError key)
  else
    let overlap c :=
      has_column c left && has_column c right && negb (String.eqb c key) in
    let rename (s c : string) := if overlap c then (c ++ s)%string else c in
    let rename_row (s : string) (r : row) : row :=
      map (fun kv => (rename s (fst kv), snd kv)) r in
    let right_columns :=
      map (rename sr) (filter (fun c => negb (String.eqb c key)) (columns right)) in
    let missing : row := map (fun c => (c, NaN)) right_columns in
    let join (l : row) : list row :=
      match filter (fun r => cell_eqb (row_get key r) (row_get key l)) (rows right) with
      | [] => [rename_row sl l ++ missing]
      | found => map (fun r => rename_row sl l ++ rename_row sr (row_remove key r)) found
      end in
    Ok (mkFrame (map (rename sl) (columns left) ++ right_columns)
                (flat_map join (rows left))).

(** [df[dst] = values], the value of each row given from the row: an
    existing column is overwritten, a new one is added last. *)
Definition set_column (dst : string) (g : row -> cell) (f : frame) : frame :=
  mkFrame (if has_column dst f then columns f else columns f ++ [dst])
          (map (fun r => row_set dst (g r) r) (rows f)).

(** [df[dst] = df[src].apply(g)] *)
Definition assign (dst src : string) (g : cell -> cell) (f : frame) : result frame :=
  if has_column src f then Ok (set_column dst (fun r => g (row_get src r)) f)
  else Raise (KeyError src).

(** [if src in df.columns: df[dst] = df[src].apply(g)] *)
Definition assign_if_present (dst src : string) (g : cell -> cell) (f : frame) : frame :=
  if has_column src f then set_column dst (fun r => g (row_get src r)) f else f.

(** [series.fillna(v)] on one cell *)
Definition fillna (v : string) (c : cell) : cell :=
  if isna c then Str v else c.

(** [series.unique()]: the values in the order they are first seen *)
Fixpoint unique (l : list cell) : list cell :=
  match l with
  | [] => []
  | x :: l' => x :: filter (fun y => negb (cell_eqb x y)) (unique l')
  end.

(** [series.dropna()] *)
Definition dropna (l : list cell) : list cell :=
  filter (fun c => negb (isna c)) l.

(** [sep.join(values)]: TypeError on a value that is not a string *)
Fixpoint strings_of (l : list cell) : result (list string) :=
  match l with
  | [] => Ok []
  | Str s :: l' => ss <- strings_of l' ;; Ok (s :: ss)
  | _ :: _ => Raise TypeError
  end.

Definition join_cells (sep : string) (l : list cell) : result string :=
  ss <- strings_of l ;; Ok (String.concat sep ss).

(** The order in which [groupby] lists its keys: integers before strings. *)
Definition key_leb (a b : cell) : bool :=
  match a, b with
  | Int x, Int y => Z.leb x y
  | Int _, _ => true
  | Str s, Str t => String.leb s t
  | Str _, Int _ => false
  | Str _, NaN => true
  | NaN, NaN => true
  | NaN, _ => false
  end.

Fixpoint insert_key (k : cell) (l : list cell) : list cell :=
  match l with
  | [] => [k]
  | x :: l' => if key_leb k x then k :: l else x :: insert_key k l'
  end.

Definition sort_keys (l : list cell) : list cell := fold_right insert_key [] l.

Fixpoint mapM {A B : Type} (f : A -> result B) (l : list A) : result (list B) :=
  match l with
  | [] => Ok []
  | x :: l' => y <- f x ;; ys <- mapM f l' ;; Ok (y :: ys)
  end.

Definition id_key : string := "BL record ID".

(** The names of one group: the cells of "Name" in the rows whose key is [k]. *)
Definition group_names (k : cell) (authors : frame) : list cell :=
  map (row_get "Name")
      (filter (fun r => cell_eqb (row_get id_key r) k) (rows authors)).

(** The lambda of the [apply]: ["; ".join(names.dropna().unique())] *)
Definition join_names (names : list cell) : result string :=
  join_cells "; " (unique (dropna names)).

(** [authors.groupby(id_key)["Name"].apply(...).reset_index()]: one row per
    key that is not missing, the keys in sorted order. *)
Definition grouped_authors (authors : frame) : result frame :=
  ids <- column id_key authors ;;
  _ <- column "Name" authors ;;
  grouped <- mapM (fun k => joined <- join_names (group_names k authors) ;;
                            Ok [(id_key, k); ("Name", Str joined)])
                  (sort_keys (unique (dropna ids))) ;;
  Ok (mkFrame [id_key; "Name"] grouped).

Definition permitted_genres : list string := ["Fantasy"; "Horror"; "Science Fiction"].

(** [series.isin(values)] on one cell *)
Definition isin (values : list string) (c : cell) : bool :=
  existsb (fun v => cell_eqb c (Str v)) values.

(** What the user sees of a load: the error dialog, or the printed preview. *)
Inductive event : Type :=
| ShowError (title : string) (err : exn)
| PrintHead (preview : list row).

(** The three calls of [pd.read_csv], each either a frame or the exception
    it raised. *)
Record sources : Type := mkSources {
  recs_csv : result frame;
  titles_csv : result frame;
  authors_csv : result frame
}.

(** The body of the [try] of [load_data]. *)
Definition load_frames (src : sources) : result frame :=
  recs_dataframe <- recs_csv src ;;
  titles_dataframe <- titles_csv src ;;
  authors_dataframe <- authors_csv src ;;
  let recs_dataframe := strip_columns recs_dataframe in
  let titles_dataframe := strip_columns titles_dataframe in
  let authors_dataframe := strip_columns authors_dataframe in
  merge_temp <- merge_left recs_dataframe titles_dataframe id_key "_rec" "_tit" ;;
  merge_temp <- assign "Title" "Title_rec" (fun c => c) merge_temp ;;
  merge_temp <- assign "Date of publication" "Date of publication_rec" (fun c => c) merge_temp ;;
  merge_temp <- assign "Genre" "Genre_rec" (fun c => c) merge_temp ;;
  merge_temp <- assign "ISBN" "ISBN_rec" (fillna "missing") merge_temp ;;
  let merge_temp := assign_if_present "Languages" "Languages_rec" (fun c => c) merge_temp in
  let merge_temp := assign_if_present "Type of name" "Type of name_rec" (fun c => c) merge_temp in
  grouped <- grouped_authors authors_dataframe ;;
  full <- merge_left merge_temp grouped id_key "_x" "_y" ;;
  let full :=
    fold_left (fun f col =>
                 assign_if_present col col (fun c => Str (handle_special_characters c)) f)
              ["Title"; "Name"; "Genre"] full in
  let full := assign_if_present "Topics" "Topics" (format_multivalue "Topics") full in
  genres <- column "Genre" full ;;
  Ok (select (map (isin permitted_genres) genres) full).

(** [load_data]: the table the manager holds afterwards, and what was shown. *)
Definition load_data (src : sources) : frame * list event :=
  match load_frames src with
  | Ok full => (full, [PrintHead (firstn 5 (rows full))])
  | Raise err => (empty_frame, [ShowError "Error" err])
  end.

(** ** [ComicAppUI]: the callbacks of the window

    The state of the application object and what each button does to it. The
    widgets are modelled by what the program reads from them and writes to
    them: the text of the title entry, the two drop-down choices, the lines of
    the results tree. A callback returns the state it leaves and what the
    user is shown on top of the window: an information dialog, or the
    exception that the callback let escape (Tk reports it and goes on).
    [save_selected], [show_saved_searches] and [show_report] are left out:
    they read values back from Tk or only open a window. *)

(** [df.empty]: no column, or no row. *)
Definition frame_empty (df : frame) : bool :=
  match columns df, rows df with
  | [], _ => true
  | _, [] => true
  | _, _ => false
  end.

(** [row_data.get(c, default)] on a row of [df.iterrows()] *)
Definition get_or (c : string) (default : cell) (df : frame) (r : row) : cell :=
  if has_column c df then row_get c r else default.

(** The values of one line of the results tree. *)
Record display_line : Type := mkLine {
  shown_title : string;
  shown_author : string;
  shown_year : cell;
  shown_genre : string;
  shown_isbn : cell
}.

Inductive ui_event : Type :=
| ShowInfo (title message : string)
| CallbackError (e : exn).

Module ComicAppUI.

(** The lines that [display_results] puts in the tree, after clearing it. *)
Definition display_results (df : frame) : list display_line :=
  map (fun row_data =>
         mkLine (handle_special_characters (get_or "Title" (Str "") df row_data))
                (handle_special_characters (get_or "Name" (Str "") df row_data))
                (get_or "Date of publication" (Str "") df row_data)
                (handle_special_characters (get_or "Genre" (Str "") df row_data))
                (get_or "ISBN" (Str "missing") df row_data))
      (rows df).

Record app : Type := mkApp {
  dataset_manager : frame;
  searcher : service;
  current_results : frame;
  stored_results : frame;
  title_query : string;
  selected_genre : string;
  selected_group : string;
  results_treeview : list display_line
}.


(** The texts of the five entries of the advanced search window. *)
Record adv_entries : Type := mkEntries {
  author_entry : string;
  publication_year_entry : string;
  genre_entry : string;
  edition_languages_entry : string;
  name_type_entry : string
}.

(** [{col: entry.get().strip() for col, entry in entries.items()}] *)
Definition adv_params (entries : adv_entries) : list (string * string) :=
  [("Name", strip (author_entry entries));
   ("Date of publication", strip (publication_year_entry entries));
   ("Genre", strip (genre_entry entries));
   ("Languages", strip (edition_languages_entry entries));
   ("Type of name", strip (name_type_entry entries))].

Section Callbacks.
Variable re_engine : string -> option (string -> bool).
(** [df.sort_values(c)]: pandas sorts with an unstable algorithm, so the
    order of rows with equal values is left to the library. *)
Variable sort_values : string -> frame -> frame.

Definition with_results (self : app) (svc : service) (df : frame) : app :=
  mkApp (dataset_manager self) svc df (stored_results self) (title_query self)
        (selected_genre self) (selected_group self) (display_results df).

Definition with_searcher (self : app) (svc : service) : app :=
  mkApp (dataset_manager self) svc (current_results self) (stored_results self)
        (title_query self) (selected_genre self) (selected_group self)
        (results_treeview self).

Definition filters (self : app) : app * list ui_event :=
  let genre_choice := selected_genre self in
  match (if negb (String.eqb genre_choice "All") then
           genres <- column "Genre" (dataset_manager self) ;;
           Ok (select (map (fun g => cell_eqb g (Str genre_choice)) genres)
                      (dataset_manager self))
         else Ok (dataset_manager self)) with
  | Raise e => (self, [CallbackError e])
  | Ok filtered_df =>
      let filtered_df :=
        if String.eqb (selected_group self) "Year of Publication"
           && has_column "Date of publication" filtered_df
        then sort_values "Date of publication" filtered_df
        else filtered_df in
      (with_results self (searcher self) filtered_df, [])
  end.

Definition sort_results (self : app) (ascending : bool) : app * list ui_event :=
  if frame_empty (current_results self) then
    (self, [ShowInfo "Info"
              "No search results to sort. Please apply a filter or search first."])
  else
    match sort_by_title (current_results self) ascending with
    | Raise e => (self, [CallbackError e])
    | Ok sorted_dataframe => (with_results self (searcher self) sorted_dataframe, [])
    end.

(** The callback of the Search button; in its body [manual_search] is the
    method of the search service. *)
Definition manual_search (self : app) : app * list ui_event :=
  let query_text := strip (title_query self) in
  if negb (nonempty query_text) then
    (self, [ShowInfo "Info" "Enter a title to search for."])
  else
    match manual_search re_engine (searcher self) query_text with
    | (Raise e, svc) => (with_searcher self svc, [CallbackError e])
    | (Ok found_results, svc) => (with_results self svc found_results, [])
    end.

(** The button of the advanced search window, [perform_adv_search]. *)
Definition perform_adv_search (self : app) (entries : adv_entries) : app * list ui_event :=
  match advanced_search re_engine (searcher self) (adv_params entries) with
  | (Raise e, svc) => (with_searcher self svc, [CallbackError e])
  | (Ok results_adv, svc) => (with_results self svc results_adv, [])
  end.

Definition clear_search (self : app) : app * list ui_event :=
  (mkApp (dataset_manager self) (searcher self) empty_frame (stored_results self)
         "" "All" "Author" (display_results (dataset_manager self)),
   []).

End Callbacks.

End ComicAppUI.

(** ** The words of the specification *)



(** A query without any character that a regular expression reads specially. *)
Fixpoint literal (q : string) : bool :=
  match q with
  | EmptyString => true
  | String c q' => negb (is_metachar c) && literal q'
  end.


(** The values without repetition, in the order in which they first appear. *)
Fixpoint first_seen {A : Type} (eqb : A -> A -> bool) (seen l : list A) : list A :=
  match l with
  | [] => []
  | x :: l' =>
      if existsb (eqb x) seen then first_seen eqb seen l'
      else x :: first_seen eqb (x :: seen) l'
  end.

(** The number of times [x] occurs in [l]. *)
Fixpoint occurrences {A : Type} (eqb : A -> A -> bool) (x : A) (l : list A) : Z :=
  match l with
  | [] => 0%Z
  | y :: l' => ((if eqb y x then 1 else 0) + occurrences eqb x l')%Z
  end.

(** [l'] lists the entries of the counter [c] by decreasing count, entries
    of equal count in the order in which [c] holds them. *)
Definition ranking {K : Type} (c l' : list (K * Z)) : Prop :=
  Permutation c l' /\
  StronglySorted (fun a b => (snd b <= snd a)%Z) l' /\
  forall n : Z,
    filter (fun kc => Z.eqb (snd kc) n) l' = filter (fun kc => Z.eqb (snd kc) n) c.



(** The text of one section, in the words of the format: a line "  - entry"
    for each entry, or the line "  None" when there is none. *)
Fixpoint bullets (entries : list string) : string :=
  match entries with
  | [] => ""
  | e :: es => ("  - " ++ e ++ LF ++ bullets es)%string
  end.

Definition section_text (entries : list string) : string :=
  match entries with
  | [] => ("  None" ++ LF)%string
  | _ => bullets entries
  end.

(** The text cells of a list, in order; missing values and numbers left out. *)
Definition texts (l : list cell) : list string :=
  flat_map (fun c => match c with Str s => [s] | _ => [] end) l.

(** The names that the source gives for identifier [k], in source order. *)
Definition names_of (k : cell) (authors : frame) : list string :=
  texts (map (row_get "Name")
             (filter (fun r => cell_eqb (row_get id_key r) k) (rows authors))).

(** A cell of a text column as [pd.read_csv] fills it: a blank field is read
    as a missing value, so the text of a cell is never empty. *)
Definition text_or_missing (c : cell) : Prop :=
  c = NaN \/ exists s, c = Str s /\ s <> "".

(** ** Auxiliary definitions *)

(** The atoms of a pattern without metacharacters. *)
Fixpoint literal_atoms (q : string) : list atom :=
  match q with
  | EmptyString => []
  | String c q' => Lit c :: literal_atoms q'
  end.

(** The test that the loop of [advanced_search] applies to a row when every
    value is free of metacharacters. *)
Definition passes (params : list (string * string)) (r : row) : bool :=
  forallb (fun kv =>
             if nonempty (snd kv)
             then search (literal_atoms (lower (snd kv)))
                         (lower (cell_str (row_get (fst kv) r)))
             else true) params.

(** The unified columns that [load_data] adds to the first merge. *)
Definition unified (merge_temp : frame) : frame :=
  assign_if_present "Type of name" "Type of name_rec" (fun c => c)
    (assign_if_present "Languages" "Languages_rec" (fun c => c)
       (set_column "ISBN" (fun r => fillna "missing" (row_get "ISBN_rec" r))
          (set_column "Genre" (fun r => row_get "Genre_rec" r)
             (set_column "Date of publication"
                (fun r => row_get "Date of publication_rec" r)
                (set_column "Title" (fun r => row_get "Title_rec" r) merge_temp))))).

(** The cleaning that [load_data] applies to the second merge. *)
Definition sanitized (full : frame) : frame :=
  assign_if_present "Topics" "Topics" (format_multivalue "Topics")
    (fold_left (fun f col =>
                  assign_if_present col col (fun c => Str (handle_special_characters c)) f)
               ["Title"; "Name"; "Genre"] full).

(** A cell that holds text. *)
Definition is_text (c : cell) : Prop := exists s, c = Str s.


(** The sum of the counts of a counter. *)
Definition counter_total {K : Type} (c : Counter K) : Z :=
  fold_right (fun kc acc => (snd kc + acc)%Z) 0%Z c.

(** ** Test data *)

(** The three files of the test suite, as [pd.read_csv] reads them. *)
Definition test_records : frame :=
  let record (i : Z) (t : string) (y : Z) (g : string) (n : Z) : row :=
    [("BL record ID", Int i); ("Title_rec", Str t);
     ("Date of publication_rec", Int y); ("Genre_rec", Str g); ("ISBN_rec", Int n)] in
  mkFrame ["BL record ID"; "Title_rec"; "Date of publication_rec"; "Genre_rec"; "ISBN_rec"]
          [record 1%Z "Test Comic" 2000%Z "Fantasy" 12345%Z;
           record 2%Z "Other Comic" 2001%Z "Horror" 67890%Z;
           record 3%Z "Ignore Me" 2002%Z "Romance" 0%Z].

Definition test_titles : frame :=
  mkFrame ["BL record ID"; "Title_tit"]
          [[("BL record ID", Int 1); ("Title_tit", Str "Test Comic Title")];
           [("BL record ID", Int 2); ("Title_tit", Str "Other Comic Title")];
           [("BL record ID", Int 3); ("Title_tit", Str "Ignore Title")]].

Definition test_names : frame :=
  mkFrame ["BL record ID"; "Name"]
          [[("BL record ID", Int 1); ("Name", Str "Author One")];
           [("BL record ID", Int 1); ("Name", Str "Author One Duplicate")];
           [("BL record ID", Int 2); ("Name", Str "Author Two")];
           [("BL record ID", Int 3); ("Name", Str "Author Three")]].

(** The fixture [sample_dataframe] of the test suite. *)
Definition sample_dataframe : frame :=
  let comic (t n : string) (y : Z) (g i : string) : row :=
    [("Title", Str t); ("Name", Str n); ("Date of publication", Int y);
     ("Genre", Str g); ("ISBN", Str i)] in
  mkFrame ["Title"; "Name"; "Date of publication"; "Genre"; "ISBN"]
          [comic "Spider-Man" "Stan Lee" 1962%Z "Fantasy" "111";
           comic "Batman" "Bob Kane" 1939%Z "Horror" "222";
           comic "Superman" "Jerry Siegel" 1938%Z "Science Fiction" "333"].

(** An instance of the parameter [re_engine] for closed examples: it rejects
    every pattern it is asked about. The examples below only use patterns that
    [parse_simple] reads, which never reach it. *)
Definition re_rejecting : string -> option (string -> bool) := fun _ => None.

(** Two editions of one title. *)
Definition two_editions : frame :=
  mkFrame ["Title"; "ISBN"]
          [[("Title", Str "Batman"); ("ISBN", Str "111")];
           [("Title", Str "Batman"); ("ISBN", Str "222")]].

(** The three files of the test suite, read without error. *)
Definition test_sources : sources :=
  mkSources (Ok test_records) (Ok test_titles) (Ok test_names).

(** A table in which one title is missing. *)
Definition untitled_edition : frame :=
  mkFrame ["Title"; "ISBN"]
          [[("Title", Str "Batman"); ("ISBN", Str "111")];
           [("Title", NaN); ("ISBN", Str "222")]].

(** The window on the table of the test suite, with "  bat " typed in the
    title entry. *)
Definition sample_window : ComicAppUI.app :=
  ComicAppUI.mkApp sample_dataframe (new_service sample_dataframe) empty_frame empty_frame
                   "  bat " "Horror" "Author"
                   (ComicAppUI.display_results sample_dataframe).

(** * Properties *)

(** ** Text and patterns *)

Lemma cell_eqb_eq (a b : cell) : cell_eqb a b = true <-> a = b.
Proof.
  destruct a, b; simpl; split; intro H; try discriminate; try reflexivity.
  - apply String.eqb_eq in H. now subst.
  - injection H as ->. apply String.eqb_refl.
  - apply Z.eqb_eq in H. now subst.
  - injection H as ->. apply Z.eqb_refl.
Qed.


Lemma is_metachar_lower (c : ascii) : is_metachar (lower_char c) = is_metachar c.
Proof.
  destruct c as [b0 b1 b2 b3 b4 b5 b6 b7].
  destruct b0, b1, b2, b3, b4, b5, b6, b7; reflexivity.
Qed.

Lemma literal_lower (q : string) : literal (lower q) = literal q.
Proof.
  induction q as [|c q IH]; simpl; [reflexivity|].
  now rewrite is_metachar_lower, IH.
Qed.

Lemma nonempty_lower (q : string) : nonempty (lower q) = nonempty q.
Proof. now destruct q. Qed.

Lemma parse_simple_literal (q : string) :
  literal q = true -> parse_simple q = Some (literal_atoms q).
Proof.
  induction q as [|c q IH]; simpl; intro H; [reflexivity|].
  apply andb_prop in H as [Hc Hq]. rewrite (IH Hq).
  apply negb_true_iff in Hc.
  destruct (Ascii.eqb c ".") eqn:E.
  - apply Ascii.eqb_eq in E. subst c. discriminate Hc.
  - now rewrite Hc.
Qed.



(** ** Frames and counters *)

Lemma mask_rows_map (p : row -> bool) (rs : list row) :
  mask_rows (map p rs) rs = filter p rs.
Proof.
  induction rs as [|r rs IH]; simpl; [reflexivity|].
  rewrite IH. reflexivity.
Qed.

Lemma column_present (c : string) (f : frame) :
  has_column c f = true -> column c f = Ok (map (row_get c) (rows f)).
Proof. unfold column. now intros ->. Qed.

Lemma column_absent (c : string) (f : frame) :
  has_column c f = false -> column c f = Raise (KeyError c).
Proof. unfold column. now intros ->. Qed.

Lemma select_column_mask (c : string) (p : cell -> bool) (f : frame) :
  select (map p (map (row_get c) (rows f))) f =
  mkFrame (columns f) (filter (fun r => p (row_get c r)) (rows f)).
Proof.
  unfold select. rewrite map_map. now rewrite mask_rows_map.
Qed.

Section CounterFacts.
Context {K : Type} (eqb : K -> K -> bool).
Hypothesis eqb_spec : forall a b, eqb a b = true <-> a = b.

Lemma eqb_sym (a b : K) : eqb a b = eqb b a.
Proof.
  destruct (eqb a b) eqn:E, (eqb b a) eqn:F; try reflexivity.
  - apply eqb_spec in E. subst. rewrite (proj2 (eqb_spec b b) eq_refl) in F. discriminate.
  - apply eqb_spec in F. subst. rewrite (proj2 (eqb_spec a a) eq_refl) in E. discriminate.
Qed.

Lemma counter_get_incr (k x : K) (c : Counter K) :
  counter_get eqb x (counter_incr eqb k c) =
  (counter_get eqb x c + (if eqb k x then 1 else 0))%Z.
Proof.
  induction c as [|[k' n] c IH]; simpl.
  - destruct (eqb k x); reflexivity.
  - destruct (eqb k' k) eqn:E; simpl.
    + apply eqb_spec in E. subst k'. destruct (eqb k x); lia.
    + destruct (eqb k' x) eqn:F.
      * apply eqb_spec in F. subst k'.
        rewrite eqb_sym, E. lia.
      * exact IH.
Qed.

Lemma counter_get_update (ks : list K) (x : K) (c : Counter K) :
  counter_get eqb x (counter_update eqb ks c) =
  (counter_get eqb x c + occurrences eqb x ks)%Z.
Proof.
  unfold counter_update. revert c.
  induction ks as [|k ks IH]; intro c; simpl; [lia|].
  rewrite IH, counter_get_incr. lia.
Qed.

Lemma counter_update_nil_keys (c : Counter K) : counter_update eqb [] c = c.
Proof. reflexivity. Qed.
End CounterFacts.

(** ** The search service *)

Section ServiceFacts.
Variable re_engine : string -> option (string -> bool).

Lemma re_compile_literal (q : string) :
  literal q = true ->
  re_compile re_engine (lower q) = Ok (search (literal_atoms (lower q))).
Proof.
  intro H. unfold re_compile.
  rewrite parse_simple_literal; [reflexivity | now rewrite literal_lower].
Qed.


(** What [manual_search] does once its pattern is compiled. *)
Lemma manual_search_compiled (self : service) (q : string) (m : string -> bool) :
  nonempty q = true ->
  has_column "Title" (full_data self) = true ->
  re_compile re_engine (lower q) = Ok m ->
  let found :=
    mkFrame (columns (full_data self))
            (filter (fun r => str_lower_contains m (row_get "Title" r))
                    (rows (full_data self))) in
  manual_search re_engine self q =
  (Ok found,
   mkService (full_data self) (query_history self ++ [q])
             (counter_update cell_eqb (map (row_get "Title") (rows found))
                             (comic_frequency self))).
Proof.
  intros Hq Ht Hm. unfold manual_search, record_results.
  rewrite Hq. simpl negb. cbv iota.
  rewrite (column_present _ _ Ht). simpl bind. rewrite Hm. simpl bind.
  cbv beta iota zeta. rewrite select_column_mask.
  unfold column, has_column. simpl columns. fold (has_column "Title" (full_data self)).
  rewrite Ht. reflexivity.
Qed.

(** C8: an empty query returns the full table and leaves the query history
    and the result-frequency counters as they were. *)
Theorem manual_search_empty_query (self : service) :
  manual_search re_engine self "" = (Ok (full_data self), self).
Proof. reflexivity. Qed.


End ServiceFacts.


(** *** [advanced_search] *)

Lemma nonempty_true (s : string) : nonempty s = true <-> s <> "".
Proof. destruct s; simpl; split; congruence. Qed.

Lemma nonempty_false (s : string) : nonempty s = false <-> s = "".
Proof. destruct s; simpl; split; congruence. Qed.

Lemma nonempty_append (a b : string) :
  nonempty (a ++ b) = nonempty a || nonempty b.
Proof. now destruct a. Qed.

Lemma nonempty_concat_head (sep x : string) (xs : list string) :
  nonempty x = true -> nonempty (String.concat sep (x :: xs)) = true.
Proof.
  intro H. destruct xs; simpl; [exact H|].
  now rewrite nonempty_append, H.
Qed.

Lemma combined_query_nonempty (params : list (string * string)) :
  nonempty (combined_query params) = existsb (fun kv => nonempty (snd kv)) params.
Proof.
  unfold combined_query. induction params as [|[k v] params IH]; [reflexivity|].
  simpl filter. simpl existsb. destruct (nonempty v) eqn:E.
  - simpl map. rewrite nonempty_concat_head; [reflexivity|].
    rewrite !nonempty_append. simpl. now rewrite orb_true_r.
  - exact IH.
Qed.


Lemma filter_filter {A : Type} (p q : A -> bool) (l : list A) :
  filter q (filter p l) = filter (fun x => p x && q x) l.
Proof.
  induction l as [|x l IH]; simpl; [reflexivity|].
  destruct (p x); simpl; [destruct (q x)|]; now rewrite IH.
Qed.

Section AdvancedSearchFacts.
Variable re_engine : string -> option (string -> bool).

Lemma narrow_literal (params : list (string * string)) (f : frame) :
  (forall col value, In (col, value) params -> value <> "" ->
                     has_column col f = true /\ literal value = true) ->
  exists f', narrow re_engine params f = Ok f' /\
             columns f' = columns f /\
             rows f' = filter (passes params) (rows f).
Proof.
  revert f. induction params as [|[col value] params IH]; intros f H.
  - exists f. simpl. repeat split. induction (rows f) as [|r rs IHr]; simpl; congruence.
  - simpl narrow. destruct (nonempty value) eqn:E.
    + destruct (H col value (or_introl eq_refl) (proj1 (nonempty_true value) E))
        as [Hc Hl].
      rewrite (column_present _ _ Hc). simpl bind.
      rewrite (re_compile_literal re_engine value Hl). simpl bind.
      unfold astype_str_lower_contains. rewrite select_column_mask.
      destruct (IH (mkFrame (columns f)
                      (filter (fun r => search (literal_atoms (lower value))
                                          (lower (cell_str (row_get col r))))
                              (rows f)))) as (f' & Hn & Hcols & Hrows).
      { intros c v Hin Hv. apply (H c v); [now right | exact Hv]. }
      exists f'. split; [exact Hn|]. split; [exact Hcols|].
      rewrite Hrows. simpl rows. rewrite filter_filter.
      apply filter_ext. intro r. unfold passes. simpl. now rewrite E.
    + destruct (IH f) as (f' & Hn & Hcols & Hrows).
      { intros c v Hin Hv. apply (H c v); [now right | exact Hv]. }
      exists f'. split; [exact Hn|]. split; [exact Hcols|].
      rewrite Hrows. apply filter_ext. intro r. unfold passes. simpl. now rewrite E.
Qed.

Lemma narrow_no_value (params : list (string * string)) (f : frame) :
  (forall col value, In (col, value) params -> value = "") ->
  narrow re_engine params f = Ok f.
Proof.
  induction params as [|[col value] params IH]; intro H; [reflexivity|].
  simpl. rewrite (H col value (or_introl eq_refl)). simpl.
  apply IH. intros c v Hin. apply (H c v). now right.
Qed.

End AdvancedSearchFacts.

(** ** Counting and ranking *)

Lemma insert_desc_perm {K : Type} (x : K * Z) (l : list (K * Z)) :
  Permutation (x :: l) (insert_desc x l).
Proof.
  induction l as [|y l IH]; simpl; [reflexivity|].
  destruct (snd y <=? snd x)%Z; [reflexivity|].
  rewrite perm_swap. now apply perm_skip.
Qed.

Lemma insert_desc_sorted {K : Type} (x : K * Z) (l : list (K * Z)) :
  StronglySorted (fun a b => (snd b <= snd a)%Z) l ->
  StronglySorted (fun a b => (snd b <= snd a)%Z) (insert_desc x l).
Proof.
  induction 1 as [|y l Hs IH Hy]; simpl.
  - constructor; constructor.
  - destruct (snd y <=? snd x)%Z eqn:E.
    + apply Z.leb_le in E. constructor; [now constructor|].
      constructor; [exact E|].
      eapply Forall_impl; [|exact Hy]. intros a Ha. simpl in Ha. lia.
    + apply Z.leb_gt in E. constructor; [exact IH|].
      eapply Permutation_Forall; [apply insert_desc_perm|].
      constructor; [lia | exact Hy].
Qed.

Lemma insert_desc_stable {K : Type} (n : Z) (x : K * Z) (l : list (K * Z)) :
  filter (fun kc => Z.eqb (snd kc) n) (insert_desc x l) =
  filter (fun kc => Z.eqb (snd kc) n) (x :: l).
Proof.
  induction l as [|y l IH]; [reflexivity|].
  simpl insert_desc. destruct (snd y <=? snd x)%Z eqn:E; [reflexivity|].
  apply Z.leb_gt in E. simpl filter in *. rewrite IH.
  destruct (Z.eqb (snd x) n) eqn:Ex, (Z.eqb (snd y) n) eqn:Ey; try reflexivity.
  apply Z.eqb_eq in Ex, Ey. lia.
Qed.

Lemma sorted_desc_ranking {K : Type} (c : list (K * Z)) : ranking c (sorted_desc c).
Proof.
  unfold ranking, sorted_desc. induction c as [|x c (Hp & Hs & Hf)]; simpl.
  - repeat split; constructor.
  - split; [|split].
    + rewrite <- insert_desc_perm. now apply perm_skip.
    + now apply insert_desc_sorted.
    + intro n. rewrite insert_desc_stable. simpl. now rewrite Hf.
Qed.

Section TallyFacts.
Context {K : Type} (eqb : K -> K -> bool).
Hypothesis eqb_spec : forall a b, eqb a b = true <-> a = b.

Lemma existsb_eqb_In (x : K) (l : list K) : existsb (eqb x) l = true <-> In x l.
Proof.
  rewrite existsb_exists. split.
  - intros (y & Hy & E). apply eqb_spec in E. now subst.
  - intro H. exists x. split; [exact H | now apply eqb_spec].
Qed.

Lemma first_seen_ext (s1 s2 l : list K) :
  (forall x, In x s1 <-> In x s2) -> first_seen eqb s1 l = first_seen eqb s2 l.
Proof.
  revert s1 s2. induction l as [|x l IH]; intros s1 s2 H; simpl; [reflexivity|].
  assert (E : existsb (eqb x) s1 = existsb (eqb x) s2).
  { apply eq_true_iff_eq. rewrite !existsb_eqb_In. apply H. }
  rewrite E. destruct (existsb (eqb x) s2).
  - now apply IH.
  - f_equal. apply IH. intro y. simpl. now rewrite H.
Qed.

Lemma first_seen_fresh (seen l : list K) (x : K) :
  In x (first_seen eqb seen l) -> ~ In x seen.
Proof.
  revert seen. induction l as [|y l IH]; intros seen H; simpl in H; [contradiction|].
  destruct (existsb (eqb y) seen) eqn:E.
  - now apply IH.
  - destruct H as [-> | H].
    + intro Hin. apply existsb_eqb_In in Hin. congruence.
    + intro Hin. apply (IH _ H). now right.
Qed.

Lemma first_seen_NoDup (seen l : list K) : NoDup (first_seen eqb seen l).
Proof.
  revert seen. induction l as [|y l IH]; intro seen; simpl; [constructor|].
  destruct (existsb (eqb y) seen); [apply IH|].
  constructor; [|apply IH].
  intro H. apply first_seen_fresh in H. apply H. now left.
Qed.

Lemma first_seen_In (seen l : list K) (x : K) :
  In x (first_seen eqb seen l) <-> In x l /\ ~ In x seen.
Proof.
  revert seen. induction l as [|y l IH]; intro seen; simpl; [tauto|].
  destruct (existsb (eqb y) seen) eqn:E.
  - rewrite IH. apply existsb_eqb_In in E. split; [tauto|].
    intros [[-> | H] Hn]; [contradiction | tauto].
  - assert (Hy : ~ In y seen).
    { intro H. apply existsb_eqb_In in H. congruence. }
    simpl. rewrite IH. simpl. split.
    + intros [-> | [H Hn]]; [tauto|]. split; [tauto|]. intro; apply Hn; tauto.
    + intros [[-> | H] Hn]; [tauto|].
      destruct (eqb y x) eqn:F; [apply eqb_spec in F; tauto|].
      right. split; [exact H|]. intros [-> | Hs]; [|contradiction].
      rewrite (proj2 (eqb_spec x x) eq_refl) in F. discriminate.
Qed.

Lemma counter_incr_keys (k : K) (c : Counter K) :
  map fst (counter_incr eqb k c) =
  if existsb (eqb k) (map fst c) then map fst c else map fst c ++ [k].
Proof.
  induction c as [|[k' n] c IH]; simpl; [reflexivity|].
  rewrite (eqb_sym eqb eqb_spec k k').
  destruct (eqb k' k); simpl; [reflexivity|].
  rewrite IH. now destruct (existsb (eqb k) (map fst c)).
Qed.

Lemma counter_update_keys (ks : list K) (c : Counter K) :
  map fst (counter_update eqb ks c) = map fst c ++ first_seen eqb (map fst c) ks.
Proof.
  unfold counter_update. revert c.
  induction ks as [|k ks IH]; intro c; simpl; [now rewrite app_nil_r|].
  rewrite IH, counter_incr_keys.
  destruct (existsb (eqb k) (map fst c)); [reflexivity|].
  rewrite <- app_assoc. simpl. do 2 f_equal.
  apply first_seen_ext. intro x. rewrite in_app_iff. simpl. tauto.
Qed.

Lemma counter_entries (c : Counter K) :
  NoDup (map fst c) -> c = map (fun k => (k, counter_get eqb k c)) (map fst c).
Proof.
  induction c as [|[k n] c IH]; simpl; intro H; [reflexivity|].
  inversion H as [|? ? Hk Hc]; subst.
  rewrite (proj2 (eqb_spec k k) eq_refl). f_equal.
  rewrite (IH Hc) at 1. apply map_ext_in.
  intros k' Hin. destruct (eqb k k') eqn:E; [|reflexivity].
  apply eqb_spec in E. subst k'. contradiction.
Qed.

(** [Counter(history)]: one entry for each distinct value, in the order in
    which the values first appear, with the number of its occurrences. *)
Lemma counter_of_list (l : list K) :
  counter_update eqb l [] =
  map (fun k => (k, occurrences eqb k l)) (first_seen eqb [] l).
Proof.
  pose proof (counter_update_keys l []) as Hk. simpl in Hk.
  rewrite (counter_entries (counter_update eqb l [])).
  - rewrite Hk. apply map_ext. intro k.
    now rewrite (counter_get_update eqb eqb_spec).
  - rewrite Hk. apply first_seen_NoDup.
Qed.
End TallyFacts.

(** ** The report *)

Lemma append_assoc (a b c : string) : ((a ++ b) ++ c = a ++ (b ++ c))%string.
Proof. induction a as [|x a IH]; simpl; [reflexivity | now rewrite IH]. Qed.

Lemma append_empty_r (a : string) : (a ++ "")%string = a.
Proof. induction a as [|x a IH]; simpl; [reflexivity | now rewrite IH]. Qed.

Lemma concat_bullets (entries : list string) :
  String.concat "" (map (fun e => ("  - " ++ e ++ LF)%string) entries) = bullets entries.
Proof.
  induction entries as [|e es IH]; [reflexivity|].
  destruct es as [|e' es].
  - cbn [map String.concat bullets]. now rewrite (append_empty_r LF).
  - change (String.concat "" (map (fun e => ("  - " ++ e ++ LF)%string) (e :: e' :: es)))
      with (("  - " ++ e ++ LF) ++ "" ++
            String.concat "" (map (fun e => ("  - " ++ e ++ LF)%string) (e' :: es)))%string.
    rewrite IH. cbn [bullets]. generalize (bullets es) as rest. intro rest.
    change ("" ++ ?x)%string with x. now rewrite !append_assoc.
Qed.

Lemma report_section_text (entries : list string) :
  report_section entries = section_text entries.
Proof.
  destruct entries as [|e es]; [reflexivity|].
  unfold report_section, section_text. apply concat_bullets.
Qed.

(** C5: the report is the fixed frame of three headed sections: the titles
    whose counter exceeds 100, in the order of the counter; the first ten
    distinct queries of the history ranked by number of occurrences, equal
    numbers in the order of first appearance; the first ten titles of the
    counter ranked by count in the same way; each section is the line
    "  None" when it has no entry. *)
Theorem generate_report_data_format (self : service) :
  (exists (queries : list (string * Z)) (results : list (cell * Z)),
     ranking (map (fun q => (q, occurrences String.eqb q (query_history self)))
                  (first_seen String.eqb [] (query_history self)))
             queries /\
     ranking (comic_frequency self) results /\
     generate_report_data self =
     ("--------- Search Report ---------" ++ LF ++ LF ++
      "Comics appearing in over 100 searches:" ++ LF ++
      section_text (map cell_str (popular_comics self)) ++
      LF ++ "Top 10 search queries:" ++ LF ++
      section_text (map fst (firstn 10 queries)) ++
      LF ++ "Top 10 search results:" ++ LF ++
      section_text (map cell_str (map fst (firstn 10 results))))%string) /\
  (exists over_100 : cell * Z -> bool,
     (forall kc, over_100 kc = true <-> (100 < snd kc)%Z) /\
     popular_comics self = map fst (filter over_100 (comic_frequency self))).
Proof.
  split.
  - exists (sorted_desc (counter_update String.eqb (query_history self) [])),
           (sorted_desc (comic_frequency self)).
    split; [|split].
    + rewrite <- (counter_of_list String.eqb String.eqb_eq). apply sorted_desc_ranking.
    + apply sorted_desc_ranking.
    + unfold generate_report_data, top_queries, top_results, most_common.
      now rewrite !report_section_text.
  - exists (fun kc => (100 <? snd kc)%Z). split; [|reflexivity].
    intro kc. apply Z.ltb_lt.
Qed.

(** The counters of the test: only "Batman", counted 120 times, is listed
    among the comics that appear in over 100 searches. *)
Example report_of_test_counters (table : frame) :
  generate_report_data
    (mkService table ["Batman"; "Batman"; "Spider-Man"; "Batman"]
               [(Str "Batman", 120%Z); (Str "Spider-Man", 10%Z); (Str "Superman", 5%Z)]) =
  ("--------- Search Report ---------" ++ LF ++ LF ++
   "Comics appearing in over 100 searches:" ++ LF ++
   "  - Batman" ++ LF ++
   LF ++ "Top 10 search queries:" ++ LF ++
   "  - Batman" ++ LF ++ "  - Spider-Man" ++ LF ++
   LF ++ "Top 10 search results:" ++ LF ++
   "  - Batman" ++ LF ++ "  - Spider-Man" ++ LF ++ "  - Superman" ++ LF)%string.
Proof. reflexivity. Qed.

(** ** The loader *)

Lemma bind_Ok {A B : Type} (r : result A) (k : A -> result B) (b : B) :
  bind r k = Ok b -> exists a, r = Ok a /\ k a = Ok b.
Proof. destruct r as [a|e]; simpl; intro H; [now exists a | discriminate]. Qed.

Ltac bind_inversion H :=
  repeat match type of H with
         | bind _ _ = Ok _ =>
             let a := fresh "v" in
             let E := fresh "E" in
             apply bind_Ok in H; destruct H as (a & E & H)
         end.

Lemma load_frames_genres (src : sources) (full : frame) :
  load_frames src = Ok full ->
  exists before : frame,
    full = mkFrame (columns before)
             (filter (fun r => isin permitted_genres (row_get "Genre" r)) (rows before)).
Proof.
  unfold load_frames. intro H. bind_inversion H.
  match type of H with
  | Ok (select _ ?f) = Ok _ => exists f
  end.
  match goal with
  | E : column "Genre" _ = Ok _ |- _ =>
      unfold column in E;
      destruct (has_column "Genre" _); [injection E as <- | discriminate E]
  end.
  injection H as <-. apply select_column_mask.
Qed.

Lemma isin_permitted (c : cell) :
  isin permitted_genres c = true ->
  exists g, c = Str g /\ (g = "Fantasy" \/ g = "Horror" \/ g = "Science Fiction").
Proof.
  unfold isin, permitted_genres. simpl. rewrite !orb_true_iff, !cell_eqb_eq.
  intros [H | [H | [H | H]]]; [| | | discriminate]; subst c; eexists; split; eauto.
Qed.

(** C1: whatever the three sources are, every row of the table that
    [load_data] leaves in the manager has a Genre that is one of "Fantasy",
    "Horror" and "Science Fiction". *)
Theorem load_data_permitted_genres (src : sources) :
  Forall (fun r => exists g, row_get "Genre" r = Str g /\
                             (g = "Fantasy" \/ g = "Horror" \/ g = "Science Fiction"))
         (rows (fst (load_data src))).
Proof.
  unfold load_data. destruct (load_frames src) as [full|e] eqn:E; simpl; [|constructor].
  destruct (load_frames_genres src full E) as (before & ->). simpl.
  apply Forall_forall. intros r Hr. apply filter_In in Hr as [_ Hr].
  now apply isin_permitted.
Qed.

(** A load that raises shows the error and leaves an empty table. *)
Lemma load_data_recovers (src : sources) (e : exn) :
  load_frames src = Raise e ->
  load_data src = (empty_frame, [ShowError "Error" e]).
Proof. unfold load_data. now intros ->. Qed.

Lemma load_frames_unreadable (src : sources) (e : exn) :
  recs_csv src = Raise e \/
  (exists f, recs_csv src = Ok f) /\ titles_csv src = Raise e \/
  (exists f, recs_csv src = Ok f) /\ (exists f, titles_csv src = Ok f) /\
  authors_csv src = Raise e ->
  load_frames src = Raise e.
Proof.
  unfold load_frames.
  intros [H | [[[f H1] H] | [[f1 H1] [[f2 H2] H]]]].
  - now rewrite H.
  - now rewrite H1, H.
  - now rewrite H1, H2, H.
Qed.


(** [test_comics_dataset_manager]: the Romance record is dropped, the title
    comes from the records, the authors of record 1 are joined. *)
Example load_test_files :
  let df := fst (load_data (mkSources (Ok test_records) (Ok test_titles) (Ok test_names))) in
  map (row_get "Genre") (rows df) = [Str "Fantasy"; Str "Horror"] /\
  map (row_get "Title") (rows df) = [Str "Test Comic"; Str "Other Comic"] /\
  map (row_get "Name") (rows df) =
    [Str "Author One; Author One Duplicate"; Str "Author Two"].
Proof. vm_compute. repeat split. Qed.

(** [test_format_multivalue] and [test_handle_special_characters] *)
Example format_multivalue_test :
  format_multivalue "Test" (Str "val1; val2; val3") =
    Str "Test: val1 | Test: val2 | Test: val3" /\
  format_multivalue "Test" (Str "single_value") = Str "single_value" /\
  handle_special_characters NaN = "".
Proof. vm_compute. repeat split. Qed.

(** C6: when a source cannot be read, [load_data] shows the error and leaves
    an empty table, as the specification says; but that table has no columns,
    and a title search or a genre filter on it raises KeyError where the
    specification promises an empty result. *)
Theorem search_after_failed_load :
  let src := mkSources (Ok test_records) (Raise (OSError "titles.csv")) (Ok test_names) in
  load_data src = (empty_frame, [ShowError "Error" (OSError "titles.csv")]) /\
  (forall re_engine,
     manual_search re_engine (new_service (fst (load_data src))) "batman" =
     (Raise (KeyError "Title"), new_service empty_frame)) /\
  filter_by_genre (new_service (fst (load_data src))) "Horror" = Raise (KeyError "Genre").
Proof. repeat split. Qed.

(** *** Grouping the names *)

Lemma unique_first_seen_from (seen l : list cell) :
  filter (fun y => negb (existsb (cell_eqb y) seen)) (unique l) =
  first_seen cell_eqb seen l.
Proof.
  revert seen. induction l as [|x l IH]; intro seen; [reflexivity|].
  simpl unique. simpl filter. simpl first_seen.
  destruct (existsb (cell_eqb x) seen) eqn:E; simpl negb; cbv iota.
  - rewrite <- IH, filter_filter. apply filter_ext. intro y.
    destruct (cell_eqb x y) eqn:F; [|reflexivity].
    apply cell_eqb_eq in F. subst y. now rewrite E.
  - f_equal. rewrite <- IH, filter_filter. apply filter_ext. intro y.
    simpl existsb. rewrite (eqb_sym cell_eqb cell_eqb_eq y x).
    now destruct (cell_eqb x y), (existsb (cell_eqb y) seen).
Qed.

Lemma unique_first_seen (l : list cell) : unique l = first_seen cell_eqb [] l.
Proof.
  rewrite <- unique_first_seen_from. simpl.
  induction (unique l) as [|x u IH]; simpl; congruence.
Qed.

Lemma first_seen_Str (seen l : list string) :
  first_seen cell_eqb (map Str seen) (map Str l) = map Str (first_seen String.eqb seen l).
Proof.
  revert seen. induction l as [|x l IH]; intro seen; [reflexivity|].
  simpl. assert (E : existsb (cell_eqb (Str x)) (map Str seen) = existsb (String.eqb x) seen).
  { induction seen as [|y seen IHs]; simpl; [reflexivity | now rewrite IHs]. }
  rewrite E. destruct (existsb (String.eqb x) seen); [apply IH|].
  simpl. f_equal. apply (IH (x :: seen)).
Qed.

Lemma dropna_texts (l : list cell) :
  Forall text_or_missing l -> dropna l = map Str (texts l).
Proof.
  unfold dropna, texts. induction 1 as [|c l Hc _ IH]; [reflexivity|].
  destruct Hc as [-> | (s & -> & _)]; simpl; now rewrite IH.
Qed.

Lemma strings_of_Str (l : list string) : strings_of (map Str l) = Ok l.
Proof. induction l as [|s l IH]; simpl; [reflexivity | now rewrite IH]. Qed.

Lemma join_names_texts (names : list cell) :
  Forall text_or_missing names ->
  join_names names = Ok (String.concat "; " (first_seen String.eqb [] (texts names))).
Proof.
  intro H. unfold join_names, join_cells.
  rewrite unique_first_seen, (dropna_texts names H).
  change (@nil cell) with (map Str []). rewrite first_seen_Str, strings_of_Str.
  reflexivity.
Qed.

Lemma mapM_Ok {A B : Type} (f : A -> result B) (g : A -> B) (l : list A) :
  (forall x, In x l -> f x = Ok (g x)) -> mapM f l = Ok (map g l).
Proof.
  induction l as [|x l IH]; intro H; simpl; [reflexivity|].
  rewrite (H x (or_introl eq_refl)). simpl.
  rewrite IH; [reflexivity|]. intros y Hy. apply H. now right.
Qed.

Lemma insert_key_perm (k : cell) (l : list cell) : Permutation (k :: l) (insert_key k l).
Proof.
  induction l as [|x l IH]; simpl; [reflexivity|].
  destruct (key_leb k x); [reflexivity|].
  rewrite perm_swap. now apply perm_skip.
Qed.

Lemma sort_keys_perm (l : list cell) : Permutation l (sort_keys l).
Proof.
  unfold sort_keys. induction l as [|k l IH]; simpl; [constructor|].
  rewrite <- insert_key_perm. now apply perm_skip.
Qed.

Lemma dropna_In (c : cell) (l : list cell) : In c (dropna l) <-> c <> NaN /\ In c l.
Proof.
  unfold dropna. rewrite filter_In. destruct c; simpl; split; intros [H1 H2];
    split; try assumption; try discriminate; try reflexivity. now contradiction H1.
Qed.

(** C7: for a names source with the identifier and Name columns, whose names
    are text or missing (a blank field is read as missing), grouping gives
    exactly one row for each identifier that is not missing, and its Name is
    the names of that identifier without repetition, in the order in which
    they first appear, missing ones left out, joined with "; "; none of the
    joined names is empty. *)
Theorem grouped_authors_names (authors : frame) :
  has_column id_key authors = true ->
  has_column "Name" authors = true ->
  Forall (fun r => text_or_missing (row_get "Name" r)) (rows authors) ->
  exists grouped : frame,
    grouped_authors authors = Ok grouped /\
    NoDup (map (row_get id_key) (rows grouped)) /\
    (forall k, In k (map (row_get id_key) (rows grouped)) <->
               k <> NaN /\ In k (map (row_get id_key) (rows authors))) /\
    (forall g, In g (rows grouped) ->
               row_get "Name" g =
               Str (String.concat "; "
                      (first_seen String.eqb [] (names_of (row_get id_key g) authors)))) /\
    (forall k n, In n (names_of k authors) -> n <> "").
Proof.
  intros Hid Hname Htext.
  set (keys := sort_keys (unique (dropna (map (row_get id_key) (rows authors))))).
  set (entry := fun k : cell =>
         [(id_key, k);
          ("Name", Str (String.concat "; "
                          (first_seen String.eqb [] (names_of k authors))))]).
  assert (Hgroup : forall k, Forall text_or_missing (group_names k authors)).
  { intro k. unfold group_names. apply Forall_map.
    apply Forall_forall. intros r Hr. apply filter_In in Hr as [Hr _].
    revert r Hr. now apply Forall_forall. }
  exists (mkFrame [id_key; "Name"] (map entry keys)).
  assert (Hkeys : map (row_get id_key) (map entry keys) = keys).
  { rewrite map_map. simpl. apply map_id. }
  split; [|split; [|split; [|split]]].
  - unfold grouped_authors.
    rewrite (column_present _ _ Hid), (column_present _ _ Hname). simpl bind.
    fold keys. rewrite (mapM_Ok _ entry); [reflexivity|].
    intros k _. now rewrite (join_names_texts _ (Hgroup k)).
  - simpl rows. rewrite Hkeys. unfold keys.
    eapply Permutation_NoDup; [apply sort_keys_perm|].
    rewrite unique_first_seen. apply (first_seen_NoDup cell_eqb cell_eqb_eq).
  - intro k. simpl rows. rewrite Hkeys. unfold keys. rewrite <- dropna_In. split.
    + intro H. apply (Permutation_in _ (Permutation_sym (sort_keys_perm _))) in H.
      rewrite unique_first_seen in H.
      now apply (first_seen_In cell_eqb cell_eqb_eq) in H as [H _].
    + intro H. apply (Permutation_in _ (sort_keys_perm _)).
      rewrite unique_first_seen. apply (first_seen_In cell_eqb cell_eqb_eq).
      split; [exact H | intros []].
  - simpl rows. intros g Hg. apply in_map_iff in Hg as (k & <- & _). reflexivity.
  - intros k n Hn. unfold names_of, texts in Hn.
    apply in_flat_map in Hn as (c & Hc & Hn).
    assert (Hc' : text_or_missing c).
    { exact (proj1 (Forall_forall _ _) (Hgroup k) c Hc). }
    destruct Hc' as [-> | (s & -> & Hs)]; simpl in Hn; [contradiction|].
    destruct Hn as [<- | []]. exact Hs.
Qed.

(** The example of the specification: the names of identifier 1. *)
Example group_author_one :
  join_names [Str "Author One"; Str "Author One Duplicate"; Str "Author One"] =
  Ok "Author One; Author One Duplicate".
Proof. reflexivity. Qed.

(** ** Sorting by title *)

Lemma qsort_body (items : list cell) :
  qsort items =
  match items with
  | [] => Ok []
  | [x] => Ok [x]
  | pivot :: rest =>
      less <- filterM (fun i => cell_leb i pivot) rest ;;
      greater <- filterM (fun i => cell_gtb i pivot) rest ;;
      sorted_less <- qsort less ;;
      sorted_greater <- qsort greater ;;
      Ok (sorted_less ++ pivot :: sorted_greater)
  end.
Proof.
  apply (qsort_elim (fun items res =>
    res = match items with
          | [] => Ok []
          | [x] => Ok [x]
          | pivot :: rest =>
              less <- filterM (fun i => cell_leb i pivot) rest ;;
              greater <- filterM (fun i => cell_gtb i pivot) rest ;;
              sorted_less <- qsort less ;;
              sorted_greater <- qsort greater ;;
              Ok (sorted_less ++ pivot :: sorted_greater)
          end)).
  - reflexivity.
  - reflexivity.
  - intros pivot c0 l e He _. cbv beta iota. now rewrite He.
  - intros pivot c0 l greater Hg less Hl _ _ _ _. cbv beta iota. now rewrite Hl, Hg.
  - intros pivot c0 l e He less Hl _ _. cbv beta iota. now rewrite Hl, He.
Qed.










Lemma filter_none {A : Type} (p : A -> bool) (l : list A) :
  (forall x, In x l -> p x = false) -> filter p l = [].
Proof.
  induction l as [|x l IH]; intro H; simpl; [reflexivity|].
  rewrite (H x (or_introl eq_refl)). apply IH. intros y Hy. apply H. now right.
Qed.






(** ** The examples of the test suite and of the specification *)

Lemma manual_search_simple_pattern (e1 e2 : string -> option (string -> bool))
      (self : service) (q : string) (atoms : list atom) :
  parse_simple (lower q) = Some atoms ->
  manual_search e1 self q = manual_search e2 self q.
Proof. intro H. unfold manual_search, re_compile. now rewrite H. Qed.

(** [test_manual_search]: "man" finds the three comics, "bat" only Batman. *)
Example manual_search_man (re_engine : string -> option (string -> bool)) :
  fst (manual_search re_engine (new_service sample_dataframe) "man") = Ok sample_dataframe.
Proof. reflexivity. Qed.

Example manual_search_bat (re_engine : string -> option (string -> bool)) :
  exists found,
    fst (manual_search re_engine (new_service sample_dataframe) "bat") = Ok found /\
    map (row_get "Title") (rows found) = [Str "Batman"].
Proof. eexists. split; reflexivity. Qed.

(** [test_advanced_search], on the table of one row of the specification. *)
Example advanced_search_bob (re_engine : string -> option (string -> bool)) :
  let bob_kane := [("Title", Str "Batman"); ("Name", Str "Bob Kane")] in
  let table := mkFrame ["Title"; "Name"] [bob_kane] in
  advanced_search re_engine (new_service table) [("Name", "Bob")] =
  (Ok table, mkService table ["Name=Bob"] [(Str "Batman", 1%Z)]).
Proof. reflexivity. Qed.

(** [test_sort_by_title] *)
Example sort_sample_titles :
  exists sorted,
    sort_by_title sample_dataframe true = Ok sorted /\
    map (row_get "Title") (rows sorted) = [Str "Batman"; Str "Spider-Man"; Str "Superman"].
Proof. eexists. split; reflexivity. Qed.

(** ** Where the program and the specification part *)

(** C4: on a table in which two rows have the same title, [sort_by_title]
    does not reorder the rows: it returns each of them once per occurrence of
    the title, four rows for two; sorting the result again, descending, gives
    sixteen rows, not the reverse of the four. *)
Theorem sort_by_title_repeats_rows :
  let first := [("Title", Str "Batman"); ("ISBN", Str "111")] in
  let second := [("Title", Str "Batman"); ("ISBN", Str "222")] in
  sort_by_title two_editions true =
    Ok (mkFrame ["Title"; "ISBN"] [first; second; first; second]) /\
  exists again,
    sort_by_title (mkFrame ["Title"; "ISBN"] [first; second; first; second]) false =
      Ok again /\
    length (rows again) = 16.
Proof. split; [reflexivity|]. eexists. split; reflexivity. Qed.




(** ** Instances of the theorems *)





Lemma grouped_authors_names_witness :
  exists grouped : frame,
    grouped_authors test_names = Ok grouped /\
    (forall g, In g (rows grouped) ->
               row_get "Name" g =
               Str (String.concat "; "
                      (first_seen String.eqb [] (names_of (row_get id_key g) test_names)))).
Proof.
  destruct (grouped_authors_names test_names eq_refl eq_refl)
    as (grouped & Hrun & _ & _ & Hnames & _).
  - repeat (apply Forall_cons;
            [right; eexists; split; [reflexivity | discriminate] |]).
    apply Forall_nil.
  - exists grouped. split; [exact Hrun | exact Hnames].
Defined.

(** * Further properties *)

(** ** Rows and columns *)

Lemma has_column_In (c : string) (f : frame) : has_column c f = true <-> In c (columns f).
Proof.
  unfold has_column. rewrite existsb_exists. split.
  - intros (x & Hx & E). apply String.eqb_eq in E. now subst.
  - intro H. exists c. split; [exact H | apply String.eqb_refl].
Qed.

Lemma row_get_set_same (c : string) (v : cell) (r : row) : row_get c (row_set c v r) = v.
Proof.
  induction r as [|[k w] r IH]; simpl.
  - now rewrite String.eqb_refl.
  - destruct (String.eqb k c) eqn:E; simpl; now rewrite E.
Qed.

Lemma row_get_set_other (c d : string) (v : cell) (r : row) :
  c <> d -> row_get c (row_set d v r) = row_get c r.
Proof.
  intro Hcd. induction r as [|[k w] r IH]; simpl.
  - destruct (String.eqb d c) eqn:E; [apply String.eqb_eq in E; congruence | reflexivity].
  - destruct (String.eqb k d) eqn:E; simpl.
    + apply String.eqb_eq in E. subst k.
      destruct (String.eqb d c) eqn:F; [apply String.eqb_eq in F; congruence | reflexivity].
    + now rewrite IH.
Qed.

Lemma set_column_keeps (c d : string) (g : row -> cell) (f : frame) :
  has_column c f = true -> has_column c (set_column d g f) = true.
Proof.
  rewrite !has_column_In. unfold set_column. simpl.
  destruct (has_column d f); [auto | intro H; apply in_or_app; now left].
Qed.

Lemma set_column_adds (d : string) (g : row -> cell) (f : frame) :
  has_column d (set_column d g f) = true.
Proof.
  rewrite has_column_In. unfold set_column. simpl.
  destruct (has_column d f) eqn:E; [now apply has_column_In|].
  apply in_or_app. right. now left.
Qed.

Lemma assign_Ok (dst src : string) (g : cell -> cell) (f f' : frame) :
  assign dst src g f = Ok f' -> f' = set_column dst (fun r => g (row_get src r)) f.
Proof. unfold assign. destruct (has_column src f); congruence. Qed.

Lemma assign_if_present_keeps (c dst src : string) (g : cell -> cell) (f : frame) :
  has_column c f = true -> has_column c (assign_if_present dst src g f) = true.
Proof.
  intro H. unfold assign_if_present. destruct (has_column src f); [|exact H].
  now apply set_column_keeps.
Qed.

Lemma merge_left_columns (left right m : frame) (key sl sr c : string) :
  merge_left left right key sl sr = Ok m ->
  has_column c left = true ->
  has_column c right = false \/ c = key ->
  has_column c m = true.
Proof.
  unfold merge_left. destruct (has_column key left && has_column key right); simpl; [|discriminate].
  intros H Hc Hr. injection H as <-. apply has_column_In. simpl.
  apply in_or_app. left. apply in_map_iff. exists c. split; [|now apply has_column_In].
  rewrite Hc. destruct Hr as [-> | ->]; simpl.
  - reflexivity.
  - now rewrite String.eqb_refl, andb_false_r.
Qed.

Lemma merge_left_key (left right m : frame) (key sl sr : string) :
  merge_left left right key sl sr = Ok m ->
  has_column key left = true /\ has_column key right = true.
Proof.
  unfold merge_left.
  destruct (has_column key left), (has_column key right); simpl; try discriminate; auto.
Qed.

Lemma grouped_authors_columns (authors grouped : frame) :
  grouped_authors authors = Ok grouped -> columns grouped = [id_key; "Name"].
Proof.
  unfold grouped_authors. intro H. bind_inversion H. now injection H as <-.
Qed.

(** ** The table of a successful load *)

Lemma load_frames_stages (src : sources) (full : frame) :
  load_frames src = Ok full ->
  exists merge_temp grouped merged : frame,
    columns grouped = [id_key; "Name"] /\
    merge_left (unified merge_temp) grouped id_key "_x" "_y" = Ok merged /\
    full = mkFrame (columns (sanitized merged))
             (filter (fun r => isin permitted_genres (row_get "Genre" r))
                     (rows (sanitized merged))).
Proof.
  unfold load_frames. intro H. bind_inversion H.
  repeat match goal with
         | E : assign _ _ _ _ = Ok _ |- _ => apply assign_Ok in E; subst
         end.
  match goal with
  | E : merge_left (strip_columns _) _ _ _ _ = Ok ?t, G : grouped_authors _ = Ok ?g,
    M : merge_left _ ?g _ _ _ = Ok ?m |- _ =>
      exists t, g, m; split; [exact (grouped_authors_columns _ _ G)|]; split; [exact M|]
  end.
  match goal with
  | E : column "Genre" _ = Ok _ |- _ =>
      unfold column in E;
      destruct (has_column "Genre" _); [injection E as <- | discriminate E]
  end.
  injection H as <-. apply select_column_mask.
Qed.

Lemma assign_if_present_columns (c : string) (g : cell -> cell) (f : frame) :
  columns (assign_if_present c c g f) = columns f.
Proof.
  unfold assign_if_present, set_column.
  destruct (has_column c f) eqn:E; reflexivity.
Qed.

Lemma sanitized_columns (m : frame) : columns (sanitized m) = columns m.
Proof. unfold sanitized. simpl. now rewrite !assign_if_present_columns. Qed.

Lemma has_column_columns (c : string) (f g : frame) :
  columns f = columns g -> has_column c f = has_column c g.
Proof. unfold has_column. now intros ->. Qed.

Lemma unified_columns (c : string) (t : frame) :
  In c ["Title"; "Date of publication"; "Genre"; "ISBN"] ->
  has_column c (unified t) = true.
Proof.
  intro H. unfold unified. do 2 apply assign_if_present_keeps.
  simpl in H. destruct H as [<- | [<- | [<- | [<- | []]]]];
    repeat first [apply set_column_adds | apply set_column_keeps].
Qed.

(** The table of a successful load has the identifier column and the four
    unified columns, so that no later access to them can fail. *)
Lemma load_frames_columns (src : sources) (full : frame) (c : string) :
  load_frames src = Ok full ->
  In c [id_key; "Title"; "Date of publication"; "Genre"; "ISBN"] ->
  has_column c full = true.
Proof.
  intros H Hc. destruct (load_frames_stages src full H) as (t & g & m & Hg & Hm & ->).
  rewrite (has_column_columns c _ m) by (simpl; apply sanitized_columns).
  destruct Hc as [<- | Hc].
  - apply (merge_left_columns _ _ _ _ _ _ _ Hm); [|now right].
    now destruct (merge_left_key _ _ _ _ _ _ Hm).
  - apply (merge_left_columns _ _ _ _ _ _ _ Hm); [now apply unified_columns|].
    left. unfold has_column. rewrite Hg.
    simpl in Hc. destruct Hc as [<- | [<- | [<- | [<- | []]]]]; reflexivity.
Qed.

Lemma assign_if_present_sets (c : string) (g : cell -> cell) (f : frame) :
  has_column c f = true ->
  Forall (fun r => exists x, row_get c r = g x) (rows (assign_if_present c c g f)).
Proof.
  intro H. unfold assign_if_present. rewrite H. simpl.
  apply Forall_forall. intros r Hr. apply in_map_iff in Hr as (r0 & <- & _).
  rewrite row_get_set_same. now eexists.
Qed.

Lemma assign_if_present_other (P : cell -> Prop) (c dst src : string)
      (g : cell -> cell) (f : frame) :
  c <> dst ->
  Forall (fun r => P (row_get c r)) (rows f) ->
  Forall (fun r => P (row_get c r)) (rows (assign_if_present dst src g f)).
Proof.
  intros Hc H. unfold assign_if_present. destruct (has_column src f); [|exact H].
  simpl. apply Forall_forall. intros r Hr. apply in_map_iff in Hr as (r0 & <- & Hr0).
  rewrite (row_get_set_other _ _ _ _ Hc). revert r0 Hr0. now apply Forall_forall.
Qed.

Lemma sanitized_text (m : frame) (c : string) :
  In c ["Title"; "Name"; "Genre"] ->
  has_column c m = true ->
  Forall (fun r => is_text (row_get c r)) (rows (sanitized m)).
Proof.
  intros Hc Hm. unfold sanitized. simpl fold_left.
  set (clean := fun x => Str (handle_special_characters x)).
  assert (Hset : forall f, has_column c f = true ->
                 Forall (fun r => is_text (row_get c r))
                        (rows (assign_if_present c c clean f))).
  { intros f Hf. eapply Forall_impl; [|apply (assign_if_present_sets c clean f Hf)].
    intros r (x & ->). now eexists. }
  assert (Hk : forall f d, has_column c f = true ->
               has_column c (assign_if_present d d clean f) = true).
  { intros f d Hf. now apply assign_if_present_keeps. }
  simpl in Hc. destruct Hc as [<- | [<- | [<- | []]]].
  - apply assign_if_present_other; [discriminate|].
    apply assign_if_present_other; [discriminate|].
    apply assign_if_present_other; [discriminate|].
    now apply Hset.
  - apply assign_if_present_other; [discriminate|].
    apply assign_if_present_other; [discriminate|].
    apply Hset. now apply Hk.
  - apply assign_if_present_other; [discriminate|].
    apply Hset. apply Hk. now apply Hk.
Qed.

Lemma filter_Forall {A : Type} (P : A -> Prop) (p : A -> bool) (l : list A) :
  Forall P l -> Forall P (filter p l).
Proof.
  rewrite !Forall_forall. intros H x Hx. apply filter_In in Hx as [Hx _]. now apply H.
Qed.

Lemma load_frames_text (src : sources) (full : frame) :
  load_frames src = Ok full ->
  Forall (fun r => is_text (row_get "Title" r) /\
                   is_text (row_get "Genre" r) /\
                   (has_column "Name" full = true -> is_text (row_get "Name" r)))
         (rows full).
Proof.
  intro E.
  assert (HT : has_column "Title" full = true)
    by (apply (load_frames_columns src full "Title" E); simpl; tauto).
  assert (HG : has_column "Genre" full = true)
    by (apply (load_frames_columns src full "Genre" E); simpl; tauto).
  destruct (load_frames_stages src full E) as (t & g & m & Hg & Hm & ->).
  rewrite (has_column_columns "Title" _ m) in HT by (simpl; apply sanitized_columns).
  rewrite (has_column_columns "Genre" _ m) in HG by (simpl; apply sanitized_columns).
  rewrite (has_column_columns "Name" _ m) by (simpl; apply sanitized_columns).
  simpl rows. apply filter_Forall.
  pose proof (sanitized_text m "Title" ltac:(simpl; tauto) HT) as H1.
  pose proof (sanitized_text m "Genre" ltac:(simpl; tauto) HG) as H2.
  pose proof (sanitized_text m "Name" ltac:(simpl; tauto)) as H3.
  rewrite Forall_forall in *. intros r Hr. repeat split; auto.
Qed.

(** X1: in the table that [load_data] leaves, every title and every genre is
    text, and so is every name when the table has the Name column: a missing
    value has become the empty string and a number its decimal text. *)
Theorem load_data_text_columns (src : sources) :
  Forall (fun r => is_text (row_get "Title" r) /\
                   is_text (row_get "Genre" r) /\
                   (has_column "Name" (fst (load_data src)) = true ->
                    is_text (row_get "Name" r)))
         (rows (fst (load_data src))).
Proof.
  unfold load_data.
  destruct (load_frames src) as [full|e] eqn:E; simpl; [|constructor].
  now apply (load_frames_text src).
Qed.




Lemma set_column_other (P : cell -> Prop) (c d : string) (g : row -> cell) (f : frame) :
  c <> d ->
  Forall (fun r => P (row_get c r)) (rows f) ->
  Forall (fun r => P (row_get c r)) (rows (set_column d g f)).
Proof.
  intros Hc H. unfold set_column. simpl.
  apply Forall_forall. intros r Hr. apply in_map_iff in Hr as (r0 & <- & Hr0).
  rewrite (row_get_set_other _ _ _ _ Hc). revert r0 Hr0. now apply Forall_forall.
Qed.




(** X3: [load_data] leaves either the empty table without columns, with the
    error shown, or a table that has the identifier column and the four
    unified columns, with the preview printed. *)
Theorem load_data_columns (src : sources) :
  (exists e, load_data src = (empty_frame, [ShowError "Error" e])) \/
  (snd (load_data src) = [PrintHead (firstn 5 (rows (fst (load_data src))))] /\
   Forall (fun c => has_column c (fst (load_data src)) = true)
          [id_key; "Title"; "Date of publication"; "Genre"; "ISBN"]).
Proof.
  unfold load_data. destruct (load_frames src) as [full|e] eqn:E.
  - right. split; [reflexivity|]. simpl fst.
    apply Forall_forall. intros c Hc. now apply (load_frames_columns src full c E).
  - left. now exists e.
Qed.


(** ** Sorting a table whose titles are text *)


(** ** The services on the table of a successful load *)

(** X4: on the table of a successful load, filtering by a genre never fails,
    and a genre other than "All" and the three permitted ones gives no row. *)
Theorem loaded_table_filter (src : sources) (full : frame) (genre : string)
        (history : list string) (freq : Counter cell) :
  load_frames src = Ok full ->
  exists out,
    filter_by_genre (mkService full history freq) genre = Ok out /\
    (~ In genre ("All" :: permitted_genres) -> rows out = []).
Proof.
  intro E.
  assert (HG : has_column "Genre" full = true)
    by (apply (load_frames_columns src full "Genre" E); simpl; tauto).
  unfold filter_by_genre. simpl full_data.
  destruct (String.eqb genre "All") eqn:EA; simpl negb; cbv iota.
  - exists full. split; [reflexivity|]. apply String.eqb_eq in EA. subst genre.
    intro H. exfalso. apply H. now left.
  - rewrite (column_present _ _ HG). simpl bind. rewrite select_column_mask.
    eexists. split; [reflexivity|]. intro Hout. simpl rows.
    apply filter_none. intros r Hr. apply not_true_is_false. intro F.
    apply cell_eqb_eq in F.
    destruct (load_frames_genres src full E) as (before & ->). simpl in Hr.
    apply filter_In in Hr as [_ Hr]. apply isin_permitted in Hr as (g & Hg & Hin).
    rewrite Hg in F. injection F as F. subst g. apply Hout.
    destruct Hin as [-> | [-> | ->]]; simpl; tauto.
Qed.


(** ** Failing loads, and the joins *)

(** X6: when a file cannot be read, [load_data] shows the exception of the
    first file that fails, in the order records, titles, names, and leaves the
    empty table. *)
Theorem load_data_read_failure (src : sources) (e : exn) :
  recs_csv src = Raise e \/
  (exists f, recs_csv src = Ok f) /\ titles_csv src = Raise e \/
  (exists f, recs_csv src = Ok f) /\ (exists f, titles_csv src = Ok f) /\
  authors_csv src = Raise e ->
  load_data src = (empty_frame, [ShowError "Error" e]).
Proof.
  intro H. apply load_data_recovers. now apply load_frames_unreadable.
Qed.


Lemma filter_key_unique (key : string) (k : cell) (rs : list row) :
  NoDup (map (row_get key) rs) ->
  length (filter (fun r => cell_eqb (row_get key r) k) rs) <= 1.
Proof.
  induction rs as [|r rs IH]; simpl; intro H; [lia|].
  inversion H as [|? ? Hn Hd]; subst.
  destruct (cell_eqb (row_get key r) k) eqn:E; [|now apply IH].
  apply cell_eqb_eq in E. subst k. rewrite filter_none; [simpl; lia|].
  intros r' Hr'. apply not_true_is_false. intro F. apply cell_eqb_eq in F.
  apply Hn. rewrite <- F. now apply in_map.
Qed.

Lemma flat_map_length_ge {A B : Type} (j : A -> list B) (l : list A) :
  (forall x, 1 <= length (j x)) -> length l <= length (flat_map j l).
Proof.
  intro H. induction l as [|x l IH]; simpl; [lia|].
  rewrite length_app. specialize (H x). lia.
Qed.

Lemma flat_map_length_one {A B : Type} (j : A -> list B) (l : list A) :
  (forall x, length (j x) = 1) -> length (flat_map j l) = length l.
Proof.
  intro H. induction l as [|x l IH]; simpl; [reflexivity|].
  rewrite length_app, H, IH. reflexivity.
Qed.

(** A left join never drops a row of the left frame, and it has exactly as
    many rows as the left frame when no two rows of the right frame have the
    same key. *)
Lemma merge_left_row_count (left right m : frame) (key sl sr : string) :
  merge_left left right key sl sr = Ok m ->
  length (rows left) <= length (rows m) /\
  (NoDup (map (row_get key) (rows right)) -> length (rows m) = length (rows left)).
Proof.
  unfold merge_left.
  destruct (has_column key left && has_column key right); simpl; [|discriminate].
  intro H. injection H as <-. simpl rows. split.
  - apply flat_map_length_ge. intro l.
    destruct (filter _ (rows right)) as [|r0 found]; simpl; lia.
  - intro Hd. apply flat_map_length_one. intro l.
    pose proof (filter_key_unique key (row_get key l) (rows right) Hd) as U.
    destruct (filter _ (rows right)) as [|r0 found]; [reflexivity|].
    simpl in U. assert (found = []) as -> by (destruct found; [reflexivity | simpl in U; lia]).
    reflexivity.
Qed.

Lemma mapM_keys {A B : Type} (f : A -> result B) (key : B -> A) (l : list A) (ys : list B) :
  (forall x y, f x = Ok y -> key y = x) ->
  mapM f l = Ok ys -> map key ys = l.
Proof.
  intro Hf. revert ys. induction l as [|x l IH]; simpl; intros ys H.
  - now injection H as <-.
  - bind_inversion H. injection H as <-. simpl.
    f_equal; [now apply Hf | now apply IH].
Qed.

Lemma grouped_authors_keys (authors grouped : frame) :
  grouped_authors authors = Ok grouped ->
  NoDup (map (row_get id_key) (rows grouped)).
Proof.
  unfold grouped_authors. intro H. bind_inversion H. injection H as <-. simpl rows.
  match goal with
  | E : mapM _ ?keys = Ok ?ys |- _ =>
      apply (mapM_keys _ (row_get id_key)) in E;
      [rewrite E | intros x y Hy; bind_inversion Hy; now injection Hy as <-]
  end.
  eapply Permutation_NoDup; [apply sort_keys_perm|].
  rewrite unique_first_seen. apply (first_seen_NoDup cell_eqb cell_eqb_eq).
Qed.

Lemma load_frames_joins (src : sources) (full : frame) :
  load_frames src = Ok full ->
  exists recs titles merge_temp grouped merged : frame,
    recs_csv src = Ok recs /\ titles_csv src = Ok titles /\
    merge_left (strip_columns recs) (strip_columns titles) id_key "_rec" "_tit" =
      Ok merge_temp /\
    NoDup (map (row_get id_key) (rows grouped)) /\
    merge_left (unified merge_temp) grouped id_key "_x" "_y" = Ok merged /\
    length (rows full) <= length (rows merged).
Proof.
  unfold load_frames. intro H. bind_inversion H.
  repeat match goal with
         | E : assign _ _ _ _ = Ok _ |- _ => apply assign_Ok in E; subst
         end.
  match goal with
  | R : recs_csv src = Ok ?r, T : titles_csv src = Ok ?t,
    E : merge_left (strip_columns _) _ _ _ _ = Ok ?mt, G : grouped_authors _ = Ok ?g,
    M : merge_left _ ?g _ _ _ = Ok ?m |- _ =>
      exists r, t, mt, g, m; repeat split;
      [exact R | exact T | exact E | exact (grouped_authors_keys _ _ G) | exact M |]
  end.
  injection H as <-. unfold select. simpl rows.
  match goal with
  | |- length (mask_rows ?mask ?rs) <= _ =>
      assert (L : forall mask' (rs' : list row), length (mask_rows mask' rs') <= length rs')
  end.
  { intros mask'. induction mask' as [|b mask' IH]; intros [|r rs']; simpl; try lia.
    specialize (IH rs'). destruct b; simpl; lia. }
  etransitivity; [apply L|].
  unfold assign_if_present, set_column.
  repeat match goal with
         | |- context [if ?b then _ else _] => destruct b
         end; simpl; rewrite ?length_map; lia.
Qed.

Lemma unified_length (t : frame) : length (rows (unified t)) = length (rows t).
Proof.
  unfold unified, assign_if_present, set_column.
  repeat match goal with
         | |- context [if ?b then _ else _] => destruct b
         end; simpl; rewrite ?length_map; reflexivity.
Qed.

(** X8: when no two rows of the titles file have the same identifier,
    [load_data] leaves at most as many rows as the records file has: the join
    with the titles cannot repeat a record then, and the join with the grouped
    names never can, since grouping leaves one row per identifier. *)
Theorem load_data_no_repeated_record (src : sources) (recs titles : frame) :
  recs_csv src = Ok recs ->
  titles_csv src = Ok titles ->
  NoDup (map (row_get id_key) (rows (strip_columns titles))) ->
  length (rows (fst (load_data src))) <= length (rows recs).
Proof.
  intros HR HT Hd. unfold load_data.
  destruct (load_frames src) as [full|e] eqn:E; simpl; [|lia].
  destruct (load_frames_joins src full E)
    as (recs' & titles' & t & g & m & HR' & HT' & M1 & Hg & M2 & Hlen).
  rewrite HR in HR'. rewrite HT in HT'. injection HR' as <-. injection HT' as <-.
  destruct (merge_left_row_count _ _ _ _ _ _ M1) as [_ L1].
  destruct (merge_left_row_count _ _ _ _ _ _ M2) as [_ L2].
  rewrite (L2 Hg), unified_length, (L1 Hd) in Hlen.
  unfold strip_columns in Hlen. simpl in Hlen. now rewrite length_map in Hlen.
Qed.

(** ** More on sorting *)




Lemma filterM_raises {A : Type} (p : A -> result bool) (l : list A) :
  (forall x e, p x = Raise e -> e = TypeError) ->
  (exists x, In x l /\ p x = Raise TypeError) ->
  filterM p l = Raise TypeError.
Proof.
  intros Hp. induction l as [|y l IH]; intros (x & Hin & Hx); [contradiction|].
  simpl. destruct (p y) as [b|e] eqn:E; simpl.
  - destruct Hin as [-> | Hin]; [congruence|].
    rewrite IH; [reflexivity | now exists x].
  - now rewrite (Hp y e E).
Qed.

Lemma cell_leb_raises (a b : cell) (e : exn) : cell_leb a b = Raise e -> e = TypeError.
Proof. destruct a, b; simpl; congruence. Qed.

Lemma cell_leb_mixed (a b : cell) :
  (is_text a /\ ~ is_text b) \/ (~ is_text a /\ is_text b) ->
  cell_leb a b = Raise TypeError.
Proof.
  intros [[[s ->] Hb] | [Ha [s ->]]].
  - destruct b; try reflexivity. exfalso. apply Hb. now eexists.
  - destruct a; try reflexivity. exfalso. apply Ha. now eexists.
Qed.

Lemma is_text_dec (c : cell) : is_text c \/ ~ is_text c.
Proof.
  destruct c; [right | left; now eexists | right]; intros [s H]; discriminate.
Qed.

(** X10: [sort_by_title] raises TypeError, whatever the direction, on a table
    in which one title is text and another is missing or a number. *)
Theorem sort_by_title_mixed_titles (df : frame) (ascending : bool) (r1 r2 : row) :
  has_column "Title" df = true ->
  In r1 (rows df) -> In r2 (rows df) ->
  is_text (row_get "Title" r1) ->
  ~ is_text (row_get "Title" r2) ->
  sort_by_title df ascending = Raise TypeError.
Proof.
  intros Hc H1 H2 T1 T2. unfold sort_by_title.
  rewrite (column_present _ _ Hc). simpl bind.
  apply (in_map (row_get "Title")) in H1, H2.
  revert H1 H2. generalize (map (row_get "Title") (rows df)) as items.
  intros items H1 H2.
  assert (Hq : qsort items = Raise TypeError); [|now rewrite Hq].
  rewrite qsort_body. destruct items as [|pivot rest]; [contradiction|].
  destruct rest as [|x rest].
  { destruct H1 as [E1 | []], H2 as [E2 | []]. rewrite <- E1 in T1.
    rewrite <- E2 in T2. contradiction. }
  rewrite (filterM_raises (fun i => cell_leb i pivot) (x :: rest)); [reflexivity | |].
  - intros y e. apply cell_leb_raises.
  - destruct (is_text_dec pivot) as [Tp | Tp].
    + exists (row_get "Title" r2). split.
      * destruct H2 as [E | H2]; [|exact H2]. rewrite <- E in T2. contradiction.
      * apply cell_leb_mixed. right. now split.
    + exists (row_get "Title" r1). split.
      * destruct H1 as [E | H1]; [|exact H1]. rewrite <- E in T1. contradiction.
      * apply cell_leb_mixed. left. now split.
Qed.




(** ** More on the searches *)

Lemma counter_total_incr {K : Type} (eqb : K -> K -> bool) (k : K) (c : Counter K) :
  counter_total (counter_incr eqb k c) = (counter_total c + 1)%Z.
Proof.
  induction c as [|[k' n] c IH]; simpl; [reflexivity|].
  destruct (eqb k' k); simpl; [lia | rewrite IH; lia].
Qed.

Lemma counter_total_update {K : Type} (eqb : K -> K -> bool) (ks : list K) (c : Counter K) :
  counter_total (counter_update eqb ks c) = (counter_total c + Z.of_nat (length ks))%Z.
Proof.
  unfold counter_update. revert c. induction ks as [|k ks IH]; intro c.
  - simpl. lia.
  - cbn [fold_left length]. rewrite IH, counter_total_incr. lia.
Qed.

Lemma filter_all {A : Type} (l : list A) : filter (fun _ => true) l = l.
Proof. induction l as [|x l IH]; simpl; congruence. Qed.

Section SearchFacts.
Variable re_engine : string -> option (string -> bool).

Lemma narrow_subtable (params : list (string * string)) (f f' : frame) :
  narrow re_engine params f = Ok f' ->
  columns f' = columns f /\ exists keep, rows f' = filter keep (rows f).
Proof.
  revert f. induction params as [|[col value] params IH]; intros f H.
  - injection H as <-. split; [reflexivity|]. exists (fun _ => true). now rewrite filter_all.
  - simpl in H. destruct (nonempty value).
    + bind_inversion H.
      match goal with
      | E : column col f = Ok _ |- _ =>
          unfold column in E; destruct (has_column col f); [injection E as <- | discriminate E]
      end.
      rewrite select_column_mask in H.
      destruct (IH _ H) as (Hc & keep & Hr). split; [exact Hc|].
      eexists. rewrite Hr. simpl rows. apply filter_filter.
    + now apply IH.
Qed.

Lemma record_results_Ok (found : frame) (freq : Counter cell) :
  has_column "Title" found = true ->
  record_results found freq =
  Ok (counter_update cell_eqb (map (row_get "Title") (rows found)) freq).
Proof. intro H. unfold record_results. now rewrite (column_present _ _ H). Qed.

(** What [manual_search] returns, in each of its three cases. *)
Lemma manual_search_cases (self : service) (q : string) :
  (q = "" /\ manual_search re_engine self q = (Ok (full_data self), self)) \/
  (exists e, manual_search re_engine self q = (Raise e, self)) \/
  (exists m, nonempty q = true /\ has_column "Title" (full_data self) = true /\
             re_compile re_engine (lower q) = Ok m /\
             manual_search re_engine self q =
             (Ok (mkFrame (columns (full_data self))
                    (filter (fun r => str_lower_contains m (row_get "Title" r))
                            (rows (full_data self)))),
              mkService (full_data self) (query_history self ++ [q])
                (counter_update cell_eqb
                   (map (row_get "Title")
                      (filter (fun r => str_lower_contains m (row_get "Title" r))
                              (rows (full_data self))))
                   (comic_frequency self)))).
Proof.
  destruct (nonempty q) eqn:Hq.
  - right. destruct (has_column "Title" (full_data self)) eqn:Ht.
    + destruct (re_compile re_engine (lower q)) as [m|e] eqn:Hm.
      * right. exists m. repeat split; try assumption.
        apply (manual_search_compiled re_engine self q m Hq Ht Hm).
      * left. exists e. unfold manual_search. rewrite Hq, (column_present _ _ Ht), Hm.
        reflexivity.
    + left. eexists. unfold manual_search. rewrite Hq, (column_absent _ _ Ht). reflexivity.
  - left. apply nonempty_false in Hq. subst q. split; reflexivity.
Qed.

(** What [advanced_search] returns on a table with a Title column. *)
Lemma advanced_search_cases (self : service) (params : list (string * string)) :
  has_column "Title" (full_data self) = true ->
  (exists e, advanced_search re_engine self params = (Raise e, self)) \/
  (exists found, narrow re_engine params (full_data self) = Ok found /\
     advanced_search re_engine self params =
     (Ok found,
      if nonempty (combined_query params)
      then mkService (full_data self) (query_history self ++ [combined_query params])
             (counter_update cell_eqb (map (row_get "Title") (rows found))
                             (comic_frequency self))
      else self)).
Proof.
  intro Ht. unfold advanced_search.
  destruct (narrow re_engine params (full_data self)) as [found|e] eqn:Hn.
  - right. exists found. split; [reflexivity|].
    destruct (narrow_subtable _ _ _ Hn) as [Hc _].
    destruct (nonempty (combined_query params)); [|reflexivity].
    rewrite record_results_Ok; [reflexivity|].
    now rewrite (has_column_columns "Title" found (full_data self) Hc).
  - left. now exists e.
Qed.

(** X12: a search that raises records nothing: after a title search that
    fails, and after an advanced search that fails on a table with a Title
    column, the service is as it was. *)
Theorem failed_search_records_nothing (self : service) :
  (forall q e svc, manual_search re_engine self q = (Raise e, svc) -> svc = self) /\
  (has_column "Title" (full_data self) = true ->
   forall params e svc,
     advanced_search re_engine self params = (Raise e, svc) -> svc = self).
Proof.
  split.
  - intros q e svc H.
    destruct (manual_search_cases self q) as [[_ E] | [[e' E] | (m & _ & _ & _ & E)]];
      rewrite E in H; congruence.
  - intros Ht params e svc H.
    destruct (advanced_search_cases self params Ht) as [[e' E] | (found & _ & E)];
      rewrite E in H; congruence.
Qed.

(** X13: a search returns a part of the table: the same columns, and rows of
    the table in table order, none added and none moved; this holds for both
    searches and for every pattern. *)
Theorem search_returns_subtable (self : service) (found : frame) (svc : service) :
  (exists q, manual_search re_engine self q = (Ok found, svc)) \/
  (exists params, advanced_search re_engine self params = (Ok found, svc)) ->
  columns found = columns (full_data self) /\
  exists keep : row -> bool, rows found = filter keep (rows (full_data self)).
Proof.
  intros [[q H] | [params H]].
  - destruct (manual_search_cases self q) as [[_ E] | [[e' E] | (m & _ & _ & _ & E)]];
      rewrite E in H; try discriminate; injection H as <- _.
    + split; [reflexivity|]. exists (fun _ => true). now rewrite filter_all.
    + split; [reflexivity|]. now eexists.
  - unfold advanced_search in H.
    destruct (narrow re_engine params (full_data self)) as [f|e] eqn:Hn; [|discriminate].
    assert (f = found) as ->.
    { destruct (nonempty (combined_query params)); [|congruence].
      destruct (record_results f (comic_frequency self)); congruence. }
    now apply narrow_subtable in Hn.
Qed.

(** X14: a title search that succeeds on a non-empty query adds one entry to
    the history, and adds to the counters, all together, exactly the number
    of rows it returns. *)
Theorem manual_search_totals (self : service) (q : string) (found : frame) (svc : service) :
  q <> "" ->
  manual_search re_engine self q = (Ok found, svc) ->
  length (query_history svc) = S (length (query_history self)) /\
  counter_total (comic_frequency svc) =
  (counter_total (comic_frequency self) + Z.of_nat (length (rows found)))%Z.
Proof.
  intros Hq H.
  destruct (manual_search_cases self q) as [[E0 E] | [[e' E] | (m & _ & _ & _ & E)]];
    [contradiction | rewrite E in H; discriminate |].
  rewrite E in H. injection H as <- <-. simpl. split.
  - rewrite length_app. simpl. lia.
  - rewrite counter_total_update, length_map. reflexivity.
Qed.

(** X15: a title search keeps the counter in insertion order: the titles
    counted before stay where they are, the titles found for the first time
    follow in the order of the returned rows, and no title is entered twice. *)
Theorem manual_search_counter_order (self : service) (q : string) (found : frame)
        (svc : service) :
  q <> "" ->
  manual_search re_engine self q = (Ok found, svc) ->
  map fst (comic_frequency svc) =
    map fst (comic_frequency self) ++
    first_seen cell_eqb (map fst (comic_frequency self))
               (map (row_get "Title") (rows found)) /\
  (NoDup (map fst (comic_frequency self)) -> NoDup (map fst (comic_frequency svc))).
Proof.
  intros Hq H.
  destruct (manual_search_cases self q) as [[E0 E] | [[e' E] | (m & _ & _ & _ & E)]];
    [contradiction | rewrite E in H; discriminate |].
  rewrite E in H. injection H as <- <-. simpl.
  rewrite (counter_update_keys cell_eqb cell_eqb_eq). split; [reflexivity|].
  intro Hnd. apply NoDup_app; [exact Hnd | apply (first_seen_NoDup cell_eqb cell_eqb_eq) |].
  intros x Hx Hf. now apply (first_seen_fresh cell_eqb cell_eqb_eq) in Hf.
Qed.
End SearchFacts.

(** ** Missing columns *)

(** X16: an operation that needs a column the table does not have raises
    KeyError with the name of the column and changes nothing: the genre
    filter (but for "All") without "Genre", the sort and the title search
    (but for the empty query) without "Title", the advanced search at the
    first parameter that has a value and names no column of the table. *)
Theorem missing_column_raises (re_engine : string -> option (string -> bool))
        (self : service) :
  (forall genre, has_column "Genre" (full_data self) = false -> genre <> "All" ->
                 filter_by_genre self genre = Raise (KeyError "Genre")) /\
  (forall df ascending, has_column "Title" df = false ->
                        sort_by_title df ascending = Raise (KeyError "Title")) /\
  (forall q, has_column "Title" (full_data self) = false -> q <> "" ->
             manual_search re_engine self q = (Raise (KeyError "Title"), self)) /\
  (forall blank col value rest,
     (forall kv, In kv blank -> snd kv = "") ->
     value <> "" -> has_column col (full_data self) = false ->
     advanced_search re_engine self (blank ++ (col, value) :: rest) =
     (Raise (KeyError col), self)).
Proof.
  split; [|split; [|split]].
  - intros genre Hc Hg. unfold filter_by_genre.
    apply String.eqb_neq in Hg. rewrite Hg. simpl. now rewrite (column_absent _ _ Hc).
  - intros df ascending Hc. unfold sort_by_title. now rewrite (column_absent _ _ Hc).
  - intros q Hc Hq. unfold manual_search.
    apply nonempty_true in Hq. rewrite Hq. simpl. now rewrite (column_absent _ _ Hc).
  - intros blank col value rest Hb Hv Hc. unfold advanced_search.
    assert (Hn : narrow re_engine (blank ++ (col, value) :: rest) (full_data self) =
                 Raise (KeyError col)); [|now rewrite Hn].
    induction blank as [|[c v] blank IH]; simpl.
    + apply nonempty_true in Hv. rewrite Hv. now rewrite (column_absent _ _ Hc).
    + pose proof (Hb (c, v) (or_introl eq_refl)) as Hv0. simpl in Hv0. subst v.
      simpl. apply IH. intros kv Hkv. apply Hb. now right.
Qed.

(** ** The report *)

Lemma firstn_incl {A : Type} (n : nat) (l : list A) (x : A) :
  In x (firstn n l) -> In x l.
Proof.
  revert n. induction l as [|y l IH]; intros [|n]; simpl; try tauto.
  intros [-> | H]; [now left | right; now apply (IH n)].
Qed.

Lemma firstn_NoDup {A : Type} (n : nat) (l : list A) : NoDup l -> NoDup (firstn n l).
Proof.
  intro H. revert n. induction H as [|x l Hx H IH]; intros [|n]; simpl; try constructor.
  - intro Hin. apply Hx. now apply firstn_incl in Hin.
  - apply IH.
Qed.

Lemma most_common_keys {K : Type} (n : nat) (c : Counter K) :
  exists ranked, Permutation (map fst c) ranked /\
                 map fst (most_common n c) = firstn n ranked.
Proof.
  exists (map fst (sorted_desc c)). split.
  - apply Permutation_map. apply sorted_desc_ranking.
  - unfold most_common. now rewrite firstn_map.
Qed.

(** X17: the report never lists more than ten queries or ten titles, never
    lists a query twice, and lists only queries of the history and titles of
    the counter; when the history has at most ten distinct queries, it lists
    every one of them. *)
Theorem report_top_ten (self : service) :
  length (top_queries self) <= 10 /\
  NoDup (top_queries self) /\
  (forall q, In q (top_queries self) -> In q (query_history self)) /\
  length (top_results self) <= 10 /\
  (forall t, In t (top_results self) -> In t (map fst (comic_frequency self))) /\
  (length (first_seen String.eqb [] (query_history self)) <= 10 ->
   forall q, In q (query_history self) -> In q (top_queries self)).
Proof.
  unfold top_queries, top_results.
  destruct (most_common_keys 10 (counter_update String.eqb (query_history self) []))
    as (rq & Pq & ->).
  destruct (most_common_keys 10 (comic_frequency self)) as (rt & Pt & ->).
  rewrite (counter_update_keys String.eqb String.eqb_eq) in Pq. simpl in Pq.
  assert (Hin : forall q, In q rq <-> In q (query_history self)).
  { intro q. split.
    - intro H. apply (Permutation_in _ (Permutation_sym Pq)) in H.
      now apply (first_seen_In String.eqb String.eqb_eq) in H as [H _].
    - intro H. apply (Permutation_in _ Pq).
      apply (first_seen_In String.eqb String.eqb_eq). split; [exact H | intros []]. }
  repeat split.
  - apply firstn_le_length.
  - apply firstn_NoDup. apply (Permutation_NoDup Pq).
    apply (first_seen_NoDup String.eqb String.eqb_eq).
  - intros q H. apply Hin. now apply firstn_incl in H.
  - apply firstn_le_length.
  - intros t H. apply firstn_incl in H. now apply (Permutation_in _ (Permutation_sym Pt)).
  - intros Hlen q H. rewrite firstn_all2; [now apply Hin|].
    now rewrite <- (Permutation_length Pq).
Qed.

(** ** How the operations compose *)

(** X18: filtering a filtered table by the same genre changes nothing, and
    filtering it by another genre leaves no row. *)
Theorem filter_by_genre_twice (self : service) (genre other : string) (out : frame)
        (history : list string) (freq : Counter cell) :
  genre <> "All" ->
  filter_by_genre self genre = Ok out ->
  filter_by_genre (mkService out history freq) genre = Ok out /\
  (other <> "All" -> other <> genre ->
   filter_by_genre (mkService out history freq) other = Ok (mkFrame (columns out) [])).
Proof.
  intros Hg H. unfold filter_by_genre in *.
  apply String.eqb_neq in Hg. rewrite Hg in *. simpl negb in *. cbv iota in *.
  destruct (has_column "Genre" (full_data self)) eqn:Hc;
    [|rewrite (column_absent _ _ Hc) in H; discriminate].
  rewrite (column_present _ _ Hc) in H. simpl in H.
  rewrite select_column_mask in H. injection H as <-.
  simpl full_data.
  assert (Hc' : forall rs, has_column "Genre" (mkFrame (columns (full_data self)) rs) = true)
    by (intro rs; exact Hc).
  split.
  - rewrite (column_present _ _ (Hc' _)). cbn [bind]. rewrite select_column_mask.
    simpl. f_equal. f_equal. rewrite filter_filter. apply filter_ext.
    intro r. now destruct (cell_eqb (row_get "Genre" r) (Str genre)).
  - intros Ho Hne. apply String.eqb_neq in Ho. rewrite Ho. simpl negb. cbv iota.
    rewrite (column_present _ _ (Hc' _)). cbn [bind]. rewrite select_column_mask.
    simpl. f_equal. f_equal. apply filter_none. intros r Hr.
    apply filter_In in Hr as [_ Hr]. apply cell_eqb_eq in Hr.
    apply not_true_is_false. intro F. apply cell_eqb_eq in F. congruence.
Qed.

Lemma forallb_perm {A : Type} (f : A -> bool) (l l' : list A) :
  Permutation l l' -> forallb f l = forallb f l'.
Proof.
  induction 1 as [|x l l' _ IH|x y l|l l' l'' _ IH1 _ IH2]; simpl.
  - reflexivity.
  - now rewrite IH.
  - now destruct (f x), (f y).
  - congruence.
Qed.

Section CompositionFacts.
Variable re_engine : string -> option (string -> bool).

Lemma advanced_search_fst (self : service) (params : list (string * string)) (f : frame) :
  narrow re_engine params (full_data self) = Ok f ->
  has_column "Title" (full_data self) = true ->
  fst (advanced_search re_engine self params) = Ok f.
Proof.
  intros Hn Ht. destruct (advanced_search_cases re_engine self params Ht)
    as [[e E] | (found & Hf & E)]; rewrite E.
  - unfold advanced_search in E. rewrite Hn in E.
    destruct (nonempty (combined_query params)); [|discriminate].
    destruct (record_results f (comic_frequency self)) eqn:R; [discriminate|].
    rewrite record_results_Ok in R; [discriminate|].
    destruct (narrow_subtable _ _ _ _ Hn) as [Hc _].
    now rewrite (has_column_columns "Title" f (full_data self) Hc).
  - simpl. congruence.
Qed.

(** X19: the rows that an advanced search returns do not depend on the order
    of its parameters (the recorded query string does): for parameters that
    name columns of the table and have values without metacharacters, any
    reordering returns the same table. *)
Theorem advanced_search_any_order (self : service) (params params' : list (string * string)) :
  has_column "Title" (full_data self) = true ->
  (forall col value, In (col, value) params -> value <> "" ->
                     has_column col (full_data self) = true /\ literal value = true) ->
  Permutation params params' ->
  fst (advanced_search re_engine self params) =
  fst (advanced_search re_engine self params').
Proof.
  intros Ht H Hp.
  destruct (narrow_literal re_engine params (full_data self) H) as (f & Hn & Hc & Hr).
  destruct (narrow_literal re_engine params' (full_data self)) as (f' & Hn' & Hc' & Hr').
  { intros col value Hin. apply H. now apply (Permutation_in _ (Permutation_sym Hp)). }
  rewrite (advanced_search_fst self params f Hn Ht).
  rewrite (advanced_search_fst self params' f' Hn' Ht).
  f_equal. destruct f as [cs rs], f' as [cs' rs']. simpl in *. subst.
  f_equal. apply filter_ext. intro r. unfold passes. now apply forallb_perm.
Qed.

(** X20: on a table whose titles are all text, an advanced search on the
    column "Title" alone does what the title search does with the same query:
    the same table is returned and the same counters result, or the same
    exception is raised; only the entry of the history differs, "Title="
    followed by the query instead of the query. *)
Theorem advanced_search_on_title (self : service) (q : string) :
  q <> "" ->
  Forall (fun r => is_text (row_get "Title" r)) (rows (full_data self)) ->
  (forall found svc,
     manual_search re_engine self q = (Ok found, svc) ->
     advanced_search re_engine self [("Title", q)] =
     (Ok found,
      mkService (full_data self) (query_history self ++ [("Title=" ++ q)%string])
                (comic_frequency svc))) /\
  (forall e svc,
     manual_search re_engine self q = (Raise e, svc) ->
     advanced_search re_engine self [("Title", q)] = (Raise e, self)).
Proof.
  intros Hq Htext.
  assert (Hne : nonempty q = true) by now apply nonempty_true.
  assert (Hcomb : combined_query [("Title", q)] = ("Title=" ++ q)%string).
  { unfold combined_query. simpl. now rewrite Hne. }
  split.
  - intros found svc H.
    destruct (manual_search_cases re_engine self q)
      as [[E0 E] | [[e' E] | (m & _ & Ht & Hm & E)]];
      [contradiction | rewrite E in H; discriminate |].
    rewrite E in H. injection H as <- <-. simpl comic_frequency.
    unfold advanced_search. simpl narrow. rewrite Hne, (column_present _ _ Ht).
    simpl bind. rewrite Hm. simpl bind. unfold astype_str_lower_contains.
    rewrite select_column_mask, Hcomb. simpl nonempty. cbv iota.
    assert (Hrows : filter (fun r => m (lower (cell_str (row_get "Title" r))))
                           (rows (full_data self)) =
                    filter (fun r => str_lower_contains m (row_get "Title" r))
                           (rows (full_data self))).
    { apply filter_ext_in. intros r Hr.
      destruct (proj1 (Forall_forall _ _) Htext r Hr) as [s ->]. reflexivity. }
    rewrite Hrows. rewrite record_results_Ok; [reflexivity | exact Ht].
  - intros e svc H. unfold manual_search in H. rewrite Hne in H. simpl negb in H.
    cbv iota in H. unfold advanced_search. simpl narrow. rewrite Hne.
    destruct (column "Title" (full_data self)) as [titles|e0] eqn:Ec; simpl in *.
    + destruct (re_compile re_engine (lower q)) as [m|e1]; simpl in *.
      * exfalso. unfold column in Ec.
        destruct (has_column "Title" (full_data self)) eqn:Ht; [|discriminate].
        injection Ec as <-. rewrite select_column_mask in H.
        rewrite record_results_Ok in H; [discriminate | exact Ht].
      * congruence.
    + congruence.
Qed.
End CompositionFacts.

(** A missing title is where the two searches part: its text is "nan" for
    the advanced search, which finds it, and the title search never does. *)
Example advanced_search_finds_missing_title (re_engine : string -> option (string -> bool)) :
  let table := mkFrame ["Title"] [[("Title", NaN)]] in
  fst (advanced_search re_engine (new_service table) [("Title", "na")]) = Ok table /\
  fst (manual_search re_engine (new_service table) "na") = Ok (mkFrame ["Title"] []).
Proof. split; reflexivity. Qed.

(** ** Text utilities *)

Lemma has_char_append (c : ascii) (a b : string) :
  has_char c (a ++ b) = has_char c a || has_char c b.
Proof.
  induction a as [|d a IH]; simpl; [reflexivity|].
  now rewrite IH, orb_assoc.
Qed.

Lemma lstrip_no_char (c : ascii) (s : string) :
  has_char c s = false -> has_char c (lstrip s) = false.
Proof.
  induction s as [|d s IH]; simpl; [reflexivity|].
  intro H. apply orb_false_elim in H as [H1 H2].
  destruct (is_space d); [now apply IH | simpl; now rewrite H1, H2].
Qed.

Lemma rstrip_no_char (c : ascii) (s : string) :
  has_char c s = false -> has_char c (rstrip s) = false.
Proof.
  induction s as [|d s IH]; simpl; [reflexivity|].
  intro H. apply orb_false_elim in H as [H1 H2]. specialize (IH H2).
  destruct (rstrip s) as [|e t].
  - destruct (is_space d); simpl; [reflexivity | now rewrite H1].
  - simpl in *. now rewrite H1.
Qed.

Lemma strip_no_char (c : ascii) (s : string) :
  has_char c s = false -> has_char c (strip s) = false.
Proof. intro H. unfold strip. now apply rstrip_no_char, lstrip_no_char. Qed.

Lemma split_on_no_sep (sep : ascii) (s w : string) :
  In w (split_on sep s) -> has_char sep w = false.
Proof.
  revert w. induction s as [|d s IH]; simpl; intros w H.
  - destruct H as [<- | []]. reflexivity.
  - destruct (Ascii.eqb d sep) eqn:E.
    + destruct H as [<- | H]; [reflexivity | now apply IH].
    + destruct (split_on sep s) as [|w0 ws] eqn:S.
      * destruct H as [<- | []]. simpl. rewrite Ascii.eqb_sym, E. reflexivity.
      * destruct H as [<- | H].
        -- simpl. rewrite Ascii.eqb_sym, E. simpl. apply IH. now left.
        -- apply IH. now right.
Qed.

Lemma concat_no_char (c : ascii) (sep : string) (l : list string) :
  has_char c sep = false ->
  (forall x, In x l -> has_char c x = false) ->
  has_char c (String.concat sep l) = false.
Proof.
  intros Hs. induction l as [|x l IH]; intro H; [reflexivity|].
  destruct l as [|y l].
  - simpl. apply H. now left.
  - change (String.concat sep (x :: y :: l))
      with (x ++ sep ++ String.concat sep (y :: l))%string.
    rewrite !has_char_append, Hs, (H x (or_introl eq_refl)). simpl.
    apply IH. intros z Hz. apply H. now right.
Qed.

(** X21: formatting a value that [format_multivalue] has formatted changes
    nothing more, for a field name without ";": the result never holds a ";"
    to split on, and it is never a missing value. *)
Theorem format_multivalue_idempotent (field_name : string) (value : cell) :
  has_char ";"%char field_name = false ->
  format_multivalue field_name (format_multivalue field_name value) =
    format_multivalue field_name value /\
  format_multivalue field_name value <> NaN.
Proof.
  intro Hf. split.
  - destruct value as [|s|z]; simpl; [|  | reflexivity].
    + now destruct (String.eqb (lower field_name) "isbn").
    + destruct (has_char ";" s) eqn:Hs; simpl; [|now rewrite Hs].
      rewrite concat_no_char; [reflexivity .. | reflexivity |].
      intros x Hx. apply in_map_iff in Hx as (w & <- & Hw).
      rewrite !has_char_append, Hf. simpl.
      apply filter_In in Hw as [Hw _]. apply in_map_iff in Hw as (p & <- & Hp).
      apply strip_no_char. now apply (split_on_no_sep _ s).
  - destruct value as [|s|z]; simpl; try discriminate.
    destruct (has_char ";" s); discriminate.
Qed.

Lemma rstrip_head (c : ascii) (s : string) :
  is_space c = false -> exists t, rstrip (String c s) = String c t.
Proof.
  intro H. simpl. destruct (rstrip s); [rewrite H|]; now eexists.
Qed.

Lemma lstrip_head (s : string) :
  lstrip s = "" \/ exists c t, lstrip s = String c t /\ is_space c = false.
Proof.
  induction s as [|d s IH]; simpl; [now left|].
  destruct (is_space d) eqn:E; [exact IH|]. right. now exists d, s.
Qed.

Lemma rstrip_idempotent (s : string) : rstrip (rstrip s) = rstrip s.
Proof.
  induction s as [|c s IH]; [reflexivity|]. simpl.
  destruct (rstrip s) as [|d t] eqn:E.
  - destruct (is_space c) eqn:F; [reflexivity|]. simpl. now rewrite F.
  - change (rstrip (String c (String d t)))
      with (match rstrip (String d t) with
            | EmptyString => if is_space c then EmptyString else String c EmptyString
            | u => String c u
            end).
    now rewrite IH.
Qed.

(** [strip] leaves a stripped text as it is. *)
Lemma strip_idempotent (s : string) : strip (strip s) = strip s.
Proof.
  unfold strip. destruct (lstrip_head s) as [E | (c & t & E & Hc)]; rewrite E.
  - reflexivity.
  - destruct (rstrip_head c t Hc) as [u Hu]. rewrite Hu.
    simpl lstrip. rewrite Hc. rewrite <- Hu. apply rstrip_idempotent.
Qed.

(** ** The window *)

Lemma manual_search_full_data (re_engine : string -> option (string -> bool))
      (self : service) (q : string) :
  full_data (snd (manual_search re_engine self q)) = full_data self.
Proof.
  destruct (manual_search_cases re_engine self q)
    as [[_ E] | [[e E] | (m & _ & _ & _ & E)]]; now rewrite E.
Qed.

Lemma advanced_search_full_data (re_engine : string -> option (string -> bool))
      (self : service) (params : list (string * string)) :
  full_data (snd (advanced_search re_engine self params)) = full_data self.
Proof.
  unfold advanced_search.
  destruct (narrow re_engine params (full_data self)); [|reflexivity].
  destruct (nonempty (combined_query params)); [|reflexivity].
  now destruct (record_results a (comic_frequency self)).
Qed.

Section WindowFacts.
Variable re_engine : string -> option (string -> bool).
Variable sort_values : string -> frame -> frame.

(** X22: the Search button never sends a blank query to the service: when
    the entry holds only white space, the user is told to enter a title and
    nothing changes; otherwise the history is left as it was or gains one
    entry, which is not empty and has no white space around it. *)
Theorem ui_search_strips_query (self : ComicAppUI.app) :
  (strip (ComicAppUI.title_query self) = "" ->
   ComicAppUI.manual_search re_engine self =
   (self, [ShowInfo "Info" "Enter a title to search for."])) /\
  (query_history (ComicAppUI.searcher (fst (ComicAppUI.manual_search re_engine self))) =
     query_history (ComicAppUI.searcher self) \/
   exists q, q <> "" /\ strip q = q /\
     query_history (ComicAppUI.searcher (fst (ComicAppUI.manual_search re_engine self))) =
     query_history (ComicAppUI.searcher self) ++ [q]).
Proof.
  unfold ComicAppUI.manual_search. split.
  - now intros ->.
  - destruct (nonempty (strip (ComicAppUI.title_query self))) eqn:Hq; simpl negb; cbv iota.
    + destruct (manual_search_cases re_engine (ComicAppUI.searcher self)
                  (strip (ComicAppUI.title_query self)))
        as [[E0 E] | [[e E] | (m & _ & _ & _ & E)]]; rewrite E; simpl.
      * now left.
      * now left.
      * right. exists (strip (ComicAppUI.title_query self)).
        split; [now apply nonempty_true|]. split; [apply strip_idempotent | reflexivity].
    + now left.
Qed.


(** X24: the Apply Filters button shows what the search service would
    return for the chosen genre, though it does not call it: the same table
    when the grouping is not by year, and the same rows in the order that the
    sort by year gives them otherwise; an exception of the filter is left to
    escape with nothing changed. *)
Theorem ui_filters_agree_with_service (self : ComicAppUI.app) :
  full_data (ComicAppUI.searcher self) = ComicAppUI.dataset_manager self ->
  (forall c f, Permutation (rows f) (rows (sort_values c f))) ->
  match filter_by_genre (ComicAppUI.searcher self) (ComicAppUI.selected_genre self) with
  | Raise e => ComicAppUI.filters sort_values self = (self, [CallbackError e])
  | Ok df =>
      exists shown,
        ComicAppUI.filters sort_values self =
          (ComicAppUI.with_results self (ComicAppUI.searcher self) shown, []) /\
        Permutation (rows df) (rows shown) /\
        (ComicAppUI.selected_group self <> "Year of Publication" -> shown = df)
  end.
Proof.
  intros Hd Hs. unfold filter_by_genre, ComicAppUI.filters. rewrite Hd.
  destruct (negb (String.eqb (ComicAppUI.selected_genre self) "All")).
  - destruct (column "Genre" (ComicAppUI.dataset_manager self)) as [genres|e]; simpl;
      [|reflexivity].
    eexists. split; [reflexivity|]. split.
    + destruct (_ && _); [|reflexivity].
      match goal with |- Permutation _ (rows (sort_values ?c ?f)) => exact (Hs c f) end.
    + intro Hg. apply String.eqb_neq in Hg. now rewrite Hg.
  - eexists. split; [reflexivity|]. split.
    + destruct (_ && _); [|reflexivity].
      match goal with |- Permutation _ (rows (sort_values ?c ?f)) => exact (Hs c f) end.
    + intro Hg. apply String.eqb_neq in Hg. now rewrite Hg.
Qed.

(** X25: an advanced search with every entry blank never fails, whatever the
    table: the full table becomes the current result and is shown, and the
    service records nothing. *)
Theorem ui_blank_advanced_search (self : ComicAppUI.app) (entries : ComicAppUI.adv_entries) :
  Forall (fun kv => snd kv = "") (ComicAppUI.adv_params entries) ->
  ComicAppUI.perform_adv_search re_engine self entries =
  (ComicAppUI.with_results self (ComicAppUI.searcher self)
     (full_data (ComicAppUI.searcher self)), []).
Proof.
  intro H. unfold ComicAppUI.perform_adv_search, advanced_search.
  rewrite narrow_no_value.
  - rewrite combined_query_nonempty.
    assert (E : existsb (fun kv => nonempty (snd kv)) (ComicAppUI.adv_params entries) = false).
    { apply not_true_is_false. intro Hex. apply existsb_exists in Hex as (kv & Hin & Hv).
      rewrite (proj1 (Forall_forall _ _) H kv Hin) in Hv. discriminate. }
    now rewrite E.
  - intros col value Hin. exact (proj1 (Forall_forall _ _) H (col, value) Hin).
Qed.

(** X26: no button changes the loaded table, the table that the service
    searches, or the saved results. *)
Theorem ui_callbacks_keep_tables (self : ComicAppUI.app) (ascending : bool)
        (entries : ComicAppUI.adv_entries) (after : ComicAppUI.app) :
  In after [fst (ComicAppUI.filters sort_values self);
            fst (ComicAppUI.sort_results self ascending);
            fst (ComicAppUI.manual_search re_engine self);
            fst (ComicAppUI.perform_adv_search re_engine self entries);
            fst (ComicAppUI.clear_search self)] ->
  ComicAppUI.dataset_manager after = ComicAppUI.dataset_manager self /\
  full_data (ComicAppUI.searcher after) = full_data (ComicAppUI.searcher self) /\
  ComicAppUI.stored_results after = ComicAppUI.stored_results self.
Proof.
  intros [<- | [<- | [<- | [<- | [<- | []]]]]].
  - unfold ComicAppUI.filters.
    destruct (if negb _ then _ else _); repeat split.
  - unfold ComicAppUI.sort_results.
    destruct (frame_empty _); [repeat split|].
    destruct (sort_by_title _ _); repeat split.
  - unfold ComicAppUI.manual_search.
    destruct (negb _); [repeat split|].
    pose proof (manual_search_full_data re_engine (ComicAppUI.searcher self)
                  (strip (ComicAppUI.title_query self))) as F.
    destruct (manual_search _ _ _) as [[found|e] svc]; simpl in *; repeat split; exact F.
  - unfold ComicAppUI.perform_adv_search.
    pose proof (advanced_search_full_data re_engine (ComicAppUI.searcher self)
                  (ComicAppUI.adv_params entries)) as F.
    destruct (advanced_search _ _ _) as [[found|e] svc]; simpl in *; repeat split; exact F.
  - repeat split.
Qed.
End WindowFacts.

(** ** Instances of the further properties *)

Lemma loaded_table_filter_witness :
  exists out,
    filter_by_genre (mkService (fst (load_data test_sources)) [] []) "Romance" = Ok out /\
    rows out = [].
Proof.
  destruct (loaded_table_filter test_sources (fst (load_data test_sources)) "Romance"
              [] [] eq_refl) as (out & Hrun & Hnone).
  exists out. split; [exact Hrun|]. apply Hnone.
  simpl. intuition discriminate.
Defined.


Lemma load_data_read_failure_witness :
  load_data (mkSources (Ok test_records) (Raise (OSError "titles.csv")) (Ok test_names)) =
  (empty_frame, [ShowError "Error" (OSError "titles.csv")]).
Proof.
  apply load_data_read_failure. right. left. split; [now eexists | reflexivity].
Defined.


Lemma load_data_no_repeated_record_witness :
  length (rows (fst (load_data test_sources))) <= length (rows test_records).
Proof.
  apply (load_data_no_repeated_record test_sources test_records test_titles);
    try reflexivity.
  repeat constructor; simpl; intuition discriminate.
Defined.



Lemma sort_by_title_mixed_titles_witness :
  sort_by_title untitled_edition true = Raise TypeError.
Proof.
  apply (sort_by_title_mixed_titles untitled_edition true
           [("Title", Str "Batman"); ("ISBN", Str "111")]
           [("Title", NaN); ("ISBN", Str "222")] eq_refl).
  - now left.
  - right. now left.
  - now exists "Batman".
  - intros [s H]. discriminate H.
Defined.


Lemma failed_search_records_nothing_witness :
  snd (manual_search re_rejecting (mkService empty_frame ["bat"] []) "man") =
    mkService empty_frame ["bat"] [] /\
  snd (advanced_search re_rejecting (mkService sample_dataframe ["bat"] [])
         [("Title", "(")]) =
    mkService sample_dataframe ["bat"] [].
Proof.
  split.
  - apply (proj1 (failed_search_records_nothing re_rejecting
                    (mkService empty_frame ["bat"] []))
             "man" (KeyError "Title")).
    reflexivity.
  - apply (proj2 (failed_search_records_nothing re_rejecting
                    (mkService sample_dataframe ["bat"] []))
             eq_refl [("Title", "(")] ReError).
    reflexivity.
Defined.

Lemma search_returns_subtable_witness :
  exists keep : row -> bool,
    rows (mkFrame (columns sample_dataframe)
            [[("Title", Str "Batman"); ("Name", Str "Bob Kane");
              ("Date of publication", Int 1939); ("Genre", Str "Horror");
              ("ISBN", Str "222")]]) =
    filter keep (rows sample_dataframe).
Proof.
  destruct (search_returns_subtable re_rejecting (new_service sample_dataframe)
              (mkFrame (columns sample_dataframe)
                 [[("Title", Str "Batman"); ("Name", Str "Bob Kane");
                   ("Date of publication", Int 1939); ("Genre", Str "Horror");
                   ("ISBN", Str "222")]])
              (mkService sample_dataframe ["bat"] [(Str "Batman", 1%Z)]))
    as [_ H].
  - left. exists "bat". reflexivity.
  - exact H.
Defined.

Lemma manual_search_totals_witness :
  let svc := snd (manual_search re_rejecting (new_service sample_dataframe) "man") in
  length (query_history svc) = 1 /\ counter_total (comic_frequency svc) = 3%Z.
Proof.
  exact (manual_search_totals re_rejecting (new_service sample_dataframe) "man"
           sample_dataframe
           (snd (manual_search re_rejecting (new_service sample_dataframe) "man"))
           ltac:(discriminate) eq_refl).
Defined.

Lemma manual_search_counter_order_witness :
  let before := mkService sample_dataframe ["super"] [(Str "Superman", 1%Z)] in
  map fst (comic_frequency (snd (manual_search re_rejecting before "man"))) =
  [Str "Superman"; Str "Spider-Man"; Str "Batman"].
Proof.
  exact (proj1 (manual_search_counter_order re_rejecting
                  (mkService sample_dataframe ["super"] [(Str "Superman", 1%Z)]) "man"
                  sample_dataframe
                  (snd (manual_search re_rejecting
                          (mkService sample_dataframe ["super"] [(Str "Superman", 1%Z)])
                          "man"))
                  ltac:(discriminate) eq_refl)).
Defined.

Lemma missing_column_raises_witness :
  advanced_search re_rejecting (new_service sample_dataframe)
                  [("Name", ""); ("Languages", "en"); ("Genre", "Horror")] =
  (Raise (KeyError "Languages"), new_service sample_dataframe).
Proof.
  apply (proj2 (proj2 (proj2 (missing_column_raises re_rejecting
                                (new_service sample_dataframe))))
           [("Name", "")] "Languages" "en" [("Genre", "Horror")]).
  - intros kv [<- | []]. reflexivity.
  - discriminate.
  - reflexivity.
Defined.

Lemma report_top_ten_witness :
  In "Spider-Man"
     (top_queries (mkService sample_dataframe
                     ["Batman"; "Batman"; "Spider-Man"; "Batman"] [])).
Proof.
  apply (proj2 (proj2 (proj2 (proj2 (proj2
           (report_top_ten (mkService sample_dataframe
                              ["Batman"; "Batman"; "Spider-Man"; "Batman"] []))))))).
  - simpl. lia.
  - simpl. tauto.
Defined.

Lemma filter_by_genre_twice_witness :
  let out := mkFrame (columns sample_dataframe)
               [[("Title", Str "Batman"); ("Name", Str "Bob Kane");
                 ("Date of publication", Int 1939); ("Genre", Str "Horror");
                 ("ISBN", Str "222")]] in
  filter_by_genre (mkService out [] []) "Horror" = Ok out /\
  filter_by_genre (mkService out [] []) "Fantasy" = Ok (mkFrame (columns out) []).
Proof.
  cbv zeta.
  destruct (filter_by_genre_twice (new_service sample_dataframe) "Horror" "Fantasy"
              (mkFrame (columns sample_dataframe)
                 [[("Title", Str "Batman"); ("Name", Str "Bob Kane");
                   ("Date of publication", Int 1939); ("Genre", Str "Horror");
                   ("ISBN", Str "222")]]) [] []) as [Hsame Hother].
  - discriminate.
  - reflexivity.
  - split; [exact Hsame|]. apply Hother; discriminate.
Defined.

Lemma advanced_search_any_order_witness :
  fst (advanced_search re_rejecting (new_service sample_dataframe)
         [("Name", "Bob"); ("Genre", "Horror")]) =
  fst (advanced_search re_rejecting (new_service sample_dataframe)
         [("Genre", "Horror"); ("Name", "Bob")]).
Proof.
  apply (advanced_search_any_order re_rejecting (new_service sample_dataframe)
           [("Name", "Bob"); ("Genre", "Horror")]
           [("Genre", "Horror"); ("Name", "Bob")] eq_refl).
  - intros col value [H | [H | []]] _; injection H as <- <-; split; reflexivity.
  - apply perm_swap.
Defined.

Lemma advanced_search_on_title_witness :
  advanced_search re_rejecting (new_service sample_dataframe) [("Title", "bat")] =
  (Ok (select [false; true; false] sample_dataframe),
   mkService sample_dataframe ["Title=bat"] [(Str "Batman", 1%Z)]).
Proof.
  apply (proj1 (advanced_search_on_title re_rejecting (new_service sample_dataframe) "bat"
                  ltac:(discriminate)
                  ltac:(repeat constructor; now eexists))
           (select [false; true; false] sample_dataframe)
           (mkService sample_dataframe ["bat"] [(Str "Batman", 1%Z)])).
  reflexivity.
Defined.

Lemma format_multivalue_idempotent_witness :
  format_multivalue "Topics" (format_multivalue "Topics" (Str "Bats; Crime")) =
  format_multivalue "Topics" (Str "Bats; Crime").
Proof.
  exact (proj1 (format_multivalue_idempotent "Topics" (Str "Bats; Crime") eq_refl)).
Defined.

Lemma ui_search_strips_query_witness :
  query_history (ComicAppUI.searcher
                   (fst (ComicAppUI.manual_search re_rejecting sample_window))) = [] \/
  exists q, q <> "" /\ strip q = q /\
    query_history (ComicAppUI.searcher
                     (fst (ComicAppUI.manual_search re_rejecting sample_window))) =
    [] ++ [q].
Proof.
  exact (proj2 (ui_search_strips_query re_rejecting sample_window)).
Defined.

Lemma ui_filters_agree_with_service_witness :
  exists shown,
    ComicAppUI.filters (fun _ df => df) sample_window =
      (ComicAppUI.with_results sample_window (new_service sample_dataframe) shown, []) /\
    map (row_get "Title") (rows shown) = [Str "Batman"].
Proof.
  pose proof (ui_filters_agree_with_service (fun _ df => df) sample_window eq_refl
                (fun _ f => Permutation_refl (rows f))) as H.
  simpl in H. destruct H as (shown & Hrun & _ & Hsame).
  exists shown. split; [exact Hrun|].
  rewrite Hsame; [reflexivity | discriminate].
Defined.

Lemma ui_blank_advanced_search_witness :
  fst (ComicAppUI.perform_adv_search re_rejecting sample_window
         (ComicAppUI.mkEntries " " "" "" "  " "")) =
  ComicAppUI.with_results sample_window (new_service sample_dataframe) sample_dataframe.
Proof.
  rewrite (ui_blank_advanced_search re_rejecting sample_window
             (ComicAppUI.mkEntries " " "" "" "  " "")).
  - reflexivity.
  - repeat constructor.
Defined.

Lemma ui_callbacks_keep_tables_witness :
  ComicAppUI.dataset_manager (fst (ComicAppUI.manual_search re_rejecting sample_window)) =
  sample_dataframe.
Proof.
  apply (ui_callbacks_keep_tables re_rejecting (fun _ df => df) sample_window true
           (ComicAppUI.mkEntries "" "" "" "" "")
           (fst (ComicAppUI.manual_search re_rejecting sample_window))).
  right. right. now left.
Defined.
